(** * Configuration manager of the analytics plugin (server/configuration.go)

    A shallow embedding of [server/configuration.go]: the [configuration]
    struct and its validation, the guarded configuration pointer of the
    plugin ([getConfiguration] / [setConfiguration]), the change hook
    [OnConfigurationChange] and the resolution of [TeamsChannels] into
    channel identifiers through the host API.

    Go pointers are addresses into an explicit heap, so that pointer
    identity (the guard of [setConfiguration]) is observable.  The host is
    a record of lookup functions whose replies are, as in Go, a pointer and
    an error that may each be nil; the code reads a field through the
    pointer after testing only the error, so a reply with both nil makes it
    panic.  Every call made to the host is appended to a log, so that
    "this lookup was never made" is a statement about the log.
    The reader/writer lock only brackets single reads and writes of the
    pointer and has no sequential content: it is not modelled. *)

From Stdlib Require Import Ascii String.
From stdpp Require Import gmap strings list fin_maps.

Local Open Scope string_scope.
Local Open Scope list_scope.

(** ** The part of Go's [strings] package the plugin uses *)

Module strings.

(** [strings.Count(s, substr)] for a one-byte [substr]: the number of
    bytes of [s] equal to it.  The plugin only counts [","] and ["/"]. *)
Fixpoint Count (s : string) (sep : ascii) : nat :=
  match s with
  | EmptyString => 0
  | String c s' => (if Ascii.eqb c sep then 1 else 0) + Count s' sep
  end.

(** [strings.Split(s, sep)] for a one-byte [sep]: the substrings of [s]
    between the occurrences of [sep], in order.  A string without [sep]
    (the empty string included) yields the one-element slice [[s]]. *)
Fixpoint Split (s : string) (sep : ascii) : list string :=
  match s with
  | EmptyString => [EmptyString]
  | String c s' =>
      if Ascii.eqb c sep then EmptyString :: Split s' sep
      else match Split s' sep with
           | [] => [String c EmptyString]
           | hd :: tl => String c hd :: tl
           end
  end.

End strings.

(** ** Errors

    A Go [error] is its message; [nil] is [None]. *)

Definition error : Type := option string.

Module errors.
Definition New (msg : string) : error := Some msg.
(** [errors.Wrap(err, msg)]: the message becomes [msg: err]. *)
Definition Wrap (err : string) (msg : string) : error :=
  Some (msg +:+ ": " +:+ err).
End errors.

(** ** The configuration struct *)

Record configuration : Type := Build_configuration {
  Username : string;
  TeamsChannels : string;
  BotUsername : string;
  BotIconURL : string
}.

(** The value of [configuration{}] and of [*new(configuration)]. *)
Definition zero_configuration : configuration :=
  Build_configuration "" "" "" "".

(** The fields of the struct type, as [reflect] sees them. *)
Definition configuration_fields : list string :=
  ["Username"; "TeamsChannels"; "BotUsername"; "BotIconURL"].

(** [reflect.ValueOf(c).NumField()]: the number of fields of the struct
    type of [c]; it does not depend on the value of [c]. *)
Definition NumField (c : configuration) : nat := length configuration_fields.

Definition isEmpty (s : string) : bool := String.eqb s "".

(** [func (c *configuration) IsValid() error], on the struct the receiver
    points to. *)
Definition IsValid (c : configuration) : error :=
  if isEmpty (Username c) then
    errors.New "Need a Username to make posts as"
  else if isEmpty (TeamsChannels c) then
    errors.New "Need TeamsChannels to post in"
  else if negb (Nat.eqb (strings.Count (TeamsChannels c) "," + 1)%nat
                        (strings.Count (TeamsChannels c) "/")) then
    errors.New "TeamsChannels must be in ofrm TeamName/ChannelName"
  else if isEmpty (BotUsername c) then
    errors.New "Need BotUsername"
  else if isEmpty (BotIconURL c) then
    errors.New "Need BotIconURL"
  else None.


(** ** The host API

    The plugin reaches the server through [p.API].  A lookup returns a
    pointer to the struct found and a [*AppError], each of which may be
    [nil] ([None]).  Only the [Id] of the returned user, team and channel
    is read, and of the error only whether it is [nil].

    [Host] is any implementation of the interface.  [API] is a host that
    honours its contract: a lookup answers with a value and no error, or
    with an error and no value. *)

Record User : Type := Build_User { User_Id : string }.
Record Team : Type := Build_Team { Team_Id : string }.
Record Channel : Type := Build_Channel { Channel_Id : string }.

Record API : Type := Build_API {
  (** fills the public fields of the struct it is given, or fails *)
  LoadPluginConfiguration : configuration → configuration + string;
  GetUserByUsername : string → option User;
  GetTeamByName : string → option Team;
  (** team id, channel name, includeDeleted *)
  GetChannelByName : string → string → bool → option Channel
}.

Record AppError : Type := Build_AppError { Message : string }.

Record Host : Type := Build_Host {
  (** fills the public fields of the struct it is given, or fails *)
  host_LoadPluginConfiguration : configuration → configuration + string;
  host_GetUserByUsername : string → option User * option AppError;
  host_GetTeamByName : string → option Team * option AppError;
  (** team id, channel name, includeDeleted *)
  host_GetChannelByName : string → string → bool → option Channel * option AppError
}.

(** The two return values of a lookup that honours the contract. *)
Definition reply {A : Type} (found : option A) : option A * option AppError :=
  match found with
  | Some a => (Some a, None)
  | None => (None, Some (Build_AppError "not found"))
  end.

Definition host_of (api : API) : Host :=
  Build_Host (LoadPluginConfiguration api)
             (λ name, reply (GetUserByUsername api name))
             (λ name, reply (GetTeamByName api name))
             (λ teamId name includeDeleted,
                reply (GetChannelByName api teamId name includeDeleted)).

Coercion host_of : API >-> Host.

(** A call made to the host, as recorded in the log. *)
Inductive call : Type :=
| CallLoadPluginConfiguration
| CallGetUserByUsername (name : string)
| CallGetTeamByName (name : string)
| CallGetChannelByName (teamId name : string) (includeDeleted : bool).

(** ** Memory and plugin state *)

(** A [*configuration]: [None] is the nil pointer, [Some l] the address of a
    cell of the heap. *)
Definition pointer : Type := option positive.

(** The fields of [Plugin] this file touches. *)
Record Plugin : Type := Build_Plugin {
  Plugin_configuration : pointer;
  BotUserID : string;
  ChannelsID : list string
}.

Record machine : Type := Build_machine {
  heap : gmap positive configuration;
  plugin : Plugin;
  calls : list call
}.

(** A Go function either returns (with the machine it leaves behind) or
    panics. *)
Inductive outcome (A : Type) : Type :=
| Done (a : A) (m : machine)
| Panic (msg : string).
Arguments Done {A} a m.
Arguments Panic {A} msg.

Definition M (A : Type) : Type := machine → outcome A.

#[global] Instance M_ret : MRet M := λ A a m, Done a m.
#[global] Instance M_bind : MBind M := λ A B f x m,
  match x m with
  | Done a m' => f a m'
  | Panic msg => Panic msg
  end.

Definition panic {A : Type} (msg : string) : M A := λ _, Panic msg.

Definition getPlugin : M Plugin := λ m, Done (plugin m) m.

Definition putPlugin (p : Plugin) : M unit := λ m,
  Done tt (Build_machine (heap m) p (calls m)).

Definition record (c : call) : M unit := λ m,
  Done tt (Build_machine (heap m) (plugin m) (calls m ++ [c])).

(** [new(T)] and [&T{...}]: a cell at an address not in use. *)
Definition alloc (c : configuration) : M pointer := λ m,
  let l := fresh (dom (heap m)) in
  Done (Some l) (Build_machine (<[l := c]> (heap m)) (plugin m) (calls m)).

Definition nil_dereference : string :=
  "invalid memory address or nil pointer dereference".

(** The cell a pointer designates, if any. *)
Definition deref (h : gmap positive configuration) (ptr : pointer)
  : option configuration :=
  match ptr with
  | Some l => h !! l
  | None => None
  end.

(** [*ptr] *)
Definition load (ptr : pointer) : M configuration := λ m,
  match deref (heap m) ptr with
  | Some c => Done c m
  | None => Panic nil_dereference
  end.

(** [*ptr = c] *)
Definition store (ptr : pointer) (c : configuration) : M unit := λ m,
  match ptr, deref (heap m) ptr with
  | Some l, Some _ =>
      Done tt (Build_machine (<[l := c]> (heap m)) (plugin m) (calls m))
  | _, _ => Panic nil_dereference
  end.

(** ** The guarded configuration pointer *)

(** [func (p *Plugin) getConfiguration() *configuration] *)
Definition getConfiguration : M pointer :=
  p ← getPlugin;
  match Plugin_configuration p with
  | None => alloc zero_configuration
  | Some l => mret (Some l)
  end.

(** [func (p *Plugin) setConfiguration(configuration *configuration)] *)
Definition setConfiguration (configuration : pointer) : M unit :=
  p ← getPlugin;
  if bool_decide (configuration ≠ None)
     && bool_decide (Plugin_configuration p = configuration) then
    c ← load configuration;
    if Nat.eqb (NumField c) 0 then mret tt
    else panic "setConfiguration called with the existing configuration"
  else
    putPlugin (Build_Plugin configuration (BotUserID p) (ChannelsID p)).

(** [func (c *configuration) Clone() *configuration]: [var clone = *c]
    copies the struct, [&clone] is the address of the copy. *)
Definition Clone (c : pointer) : M pointer :=
  clone ← load c;
  alloc clone.

(** ** Calls to the host, logged *)

Section host.
Variable host : Host.

(** [p.API.LoadPluginConfiguration(dest)] *)
Definition API_LoadPluginConfiguration (dest : pointer) : M error :=
  c ← load dest;
  record CallLoadPluginConfiguration;;
  match host_LoadPluginConfiguration host c with
  | inl c' => store dest c';; mret None
  | inr e => mret (Some e)
  end.

Definition API_GetUserByUsername (name : string)
  : M (option User * option AppError) :=
  record (CallGetUserByUsername name);;
  mret (host_GetUserByUsername host name).

Definition API_GetTeamByName (name : string)
  : M (option Team * option AppError) :=
  record (CallGetTeamByName name);;
  mret (host_GetTeamByName host name).

Definition API_GetChannelByName (teamId name : string) (includeDeleted : bool)
  : M (option Channel * option AppError) :=
  record (CallGetChannelByName teamId name includeDeleted);;
  mret (host_GetChannelByName host teamId name includeDeleted).

(** Reading a field through a pointer the host returned ([user.Id],
    [team.Id], [channel.Id]): a nil pointer panics. *)
Definition indirect {A : Type} (ptr : option A) : M A :=
  match ptr with
  | Some a => mret a
  | None => panic nil_dereference
  end.

(** ** Resolution of [TeamsChannels] *)

(** The [for ... range] loop of [parseChannelsFromConfig] over the
    pair-strings still to be processed; [channelsID] is the slice built
    so far.  The result is the pair the Go function returns. *)
Fixpoint parseChannels_loop (pairs : list string) (channelsID : list string)
  : M (list string * error) :=
  match pairs with
  | [] => mret (channelsID, None)
  | teamsChannels :: rest =>
      let v := strings.Split teamsChannels "/" in
      if negb (Nat.eqb (length v) 2) then
        mret (channelsID, Some ("Bad formatted TeamsChannels: " +:+ teamsChannels))
      else
        let teamName := nth 0 v "" in
        let channelName := nth 1 v "" in
        '(team, errC) ← API_GetTeamByName teamName;
        match errC with
        | Some _ =>
            mret (channelsID,
                  Some ("Unable to find team with configured team: " +:+ teamName))
        | None =>
            team ← indirect team;
            '(channel, errC) ← API_GetChannelByName (Team_Id team) channelName false;
            match errC with
            | Some _ =>
                mret (channelsID,
                      Some ("Unable to find channel with configured channel: "
                            +:+ channelName))
            | None =>
                channel ← indirect channel;
                parseChannels_loop rest (channelsID ++ [Channel_Id channel])
            end
        end
  end.

(** [func (p *Plugin) parseChannelsFromConfig(configuration *configuration)
    ([]string, error)], on the struct the argument points to. *)
Definition parseChannelsFromConfig (configuration : configuration)
  : M (list string * error) :=
  parseChannels_loop (strings.Split (TeamsChannels configuration) ",") [].

(** [func (p *Plugin) OnConfigurationChange() error] *)
Definition OnConfigurationChange : M error :=
  configuration ← alloc zero_configuration;
  err ← API_LoadPluginConfiguration configuration;
  match err with
  | Some err => mret (errors.Wrap err "failed to load plugin configuration")
  | None =>
      setConfiguration configuration;;
      c ← load configuration;
      match IsValid c with
      | Some err => mret (Some err)
      | None =>
          '(user, apErr) ← API_GetUserByUsername (Username c);
          match apErr with
          | Some _ =>
              mret (Some ("Unable to find user with configured username: "
                          +:+ Username c))
          | None =>
              user ← indirect user;
              p ← getPlugin;
              putPlugin (Build_Plugin (Plugin_configuration p) (User_Id user)
                                      (ChannelsID p));;
              '(channelsID, err) ← parseChannelsFromConfig c;
              match err with
              | Some err => mret (Some err)
              | None =>
                  p ← getPlugin;
                  putPlugin (Build_Plugin (Plugin_configuration p)
                                          (BotUserID p) channelsID);;
                  mret None
              end
          end
      end
  end.

End host.

(** ** Well-formed machines

    Go has no dangling pointers: the address the plugin holds designates a
    cell of the heap. *)

Definition wf (m : machine) : Prop :=
  Plugin_configuration (plugin m) = None
  ∨ is_Some (deref (heap m) (Plugin_configuration (plugin m))).

(** The machine of a plugin that has not yet seen a configuration. *)
Definition initial (botUserID : string) (channelsID : list string) : machine :=
  Build_machine ∅ (Build_Plugin None botUserID channelsID) [].

(** A machine whose published snapshot is [c], at address [1]. *)
Definition published (c : configuration) : machine :=
  Build_machine {[ 1%positive := c ]} (Build_Plugin (Some 1%positive) "" []) [].

(** [strings.Contains(s, substr)], used to say that a message names a
    field. *)
Fixpoint Contains (s substr : string) : bool :=
  String.prefix substr s
  || match s with
     | EmptyString => false
     | String _ s' => Contains s' substr
     end.

(** The format test of [IsValid], as a proposition. *)
Definition malformed (c : configuration) : Prop :=
  strings.Count (TeamsChannels c) "," + 1 ≠ strings.Count (TeamsChannels c) "/".

(** The machine after further calls to the host. *)
Definition logged (m : machine) (evs : list call) : machine :=
  Build_machine (heap m) (plugin m) (calls m ++ evs).

(** The pair-string [ps] is of the form [team/channel], the host knows the
    team, and knows the channel within it under the identifier [id]. *)
Definition resolves (api : API) (ps : string) (id : string) : Prop :=
  ∃ t c team channel,
    strings.Split ps "/" = [t; c]
    ∧ GetTeamByName api t = Some team
    ∧ GetChannelByName api (Team_Id team) c false = Some channel
    ∧ Channel_Id channel = id.

(** The two lookups made for a pair-string that resolves. *)
Definition lookups (api : API) (ps : string) : list call :=
  let v := strings.Split ps "/" in
  match GetTeamByName api (nth 0 v "") with
  | Some team =>
      [CallGetTeamByName (nth 0 v "");
       CallGetChannelByName (Team_Id team) (nth 1 v "") false]
  | None => [CallGetTeamByName (nth 0 v "")]
  end.

(** The machine [OnConfigurationChange] leaves behind once it has loaded
    [c] into a fresh cell and published its address: the new cell, the new
    pointer, the load recorded; the derived state is still the old one. *)
Definition republished (m : machine) (c : configuration) : machine :=
  let l := fresh (dom (heap m)) in
  Build_machine (<[l := c]> (<[l := zero_configuration]> (heap m)))
                (Build_Plugin (Some l) (BotUserID (plugin m)) (ChannelsID (plugin m)))
                (calls m ++ [CallLoadPluginConfiguration]).

(** The machine with the derived state replaced. *)
Definition derived (m : machine) (botUserID : string) (channelsID : list string)
  : machine :=
  Build_machine (heap m)
                (Build_Plugin (Plugin_configuration (plugin m)) botUserID channelsID)
                (calls m).

(** [strings.Join(parts, sep)] for a one-byte [sep]. *)
Fixpoint Join (parts : list string) (sep : ascii) : string :=
  match parts with
  | [] => ""
  | [p] => p
  | p :: rest => p +:+ String sep (Join rest sep)
  end.

(** The name a lookup asks the host for; the flag of a channel lookup. *)
Definition lookup_name (c : call) : option string :=
  match c with
  | CallGetTeamByName name => Some name
  | CallGetChannelByName _ name _ => Some name
  | _ => None
  end.

Definition includes_deleted (c : call) : bool :=
  match c with
  | CallGetChannelByName _ _ includeDeleted => includeDeleted
  | _ => false
  end.

(** A team or channel lookup, not including deleted channels, for a name
    without [','] and without ['/']. *)
Definition clean_lookup (c : call) : Prop :=
  ∃ name,
    lookup_name c = Some name
    ∧ strings.Count name "," = 0
    ∧ strings.Count name "/" = 0
    ∧ includes_deleted c = false.

(** A host that never answers a lookup with a nil value and a nil error
    at once. *)
Definition honours (host : Host) : Prop :=
  (∀ name, host_GetUserByUsername host name ≠ (None, None))
  ∧ (∀ name, host_GetTeamByName host name ≠ (None, None))
  ∧ (∀ teamId name includeDeleted,
       host_GetChannelByName host teamId name includeDeleted ≠ (None, None)).

(** On any host: the pair-string is [team/channel], and the host answers
    both lookups with a value and no error. *)
Definition host_resolves (host : Host) (ps : string) (id : string) : Prop :=
  ∃ t c team channel,
    strings.Split ps "/" = [t; c]
    ∧ host_GetTeamByName host t = (Some team, None)
    ∧ host_GetChannelByName host (Team_Id team) c false = (Some channel, None)
    ∧ Channel_Id channel = id.

(** The calls the loop makes for one pair-string: none when it has not two
    parts, the team lookup, and the channel lookup after a team lookup
    that gave a team and no error. *)
Definition host_lookups (host : Host) (ps : string) : list call :=
  match strings.Split ps "/" with
  | [t; c] =>
      match host_GetTeamByName host t with
      | (Some team, None) =>
          [CallGetTeamByName t; CallGetChannelByName (Team_Id team) c false]
      | _ => [CallGetTeamByName t]
      end
  | _ => []
  end.

(** The host answers a lookup made for the pair-string with a nil value
    and a nil error. *)
Definition unanswered (host : Host) (ps : string) : Prop :=
  ∃ t c,
    strings.Split ps "/" = [t; c]
    ∧ (host_GetTeamByName host t = (None, None)
       ∨ ∃ team,
           host_GetTeamByName host t = (Some team, None)
           ∧ host_GetChannelByName host (Team_Id team) c false = (None, None)).

(** A pointer a Go program can hold: nil, or the address of a cell. *)
Definition live (m : machine) (ptr : pointer) : Prop :=
  ptr = None ∨ is_Some (deref (heap m) ptr).

(** One operation on the configuration, by the host (the change hook) or
    by a hook of the plugin (reading, cloning, publishing). *)
Inductive step : machine → machine → Prop :=
| step_OnConfigurationChange (host : Host) m err m' :
    OnConfigurationChange host m = Done err m' → step m m'
| step_getConfiguration m ptr m' :
    getConfiguration m = Done ptr m' → step m m'
| step_Clone m c ptr m' :
    live m c → Clone c m = Done ptr m' → step m m'
| step_setConfiguration m ptr m' :
    live m ptr → setConfiguration ptr m = Done tt m' → step m m'.

(** ** Hosts and snapshots used as concrete inputs *)

(** A host that knows the user ["analytics"], the team ["Sales"] (as
    ["T1"]) and in it the channel ["General"] (as ["C1"]), and nothing
    else; its configuration store holds [stored]. *)
Definition sales_host (stored : configuration) : API :=
  Build_API
    (λ _, inl stored)
    (λ name, if String.eqb name "analytics" then Some (Build_User "U1") else None)
    (λ name, if String.eqb name "Sales" then Some (Build_Team "T1") else None)
    (λ teamId name _,
       if String.eqb teamId "T1" && String.eqb name "General"
       then Some (Build_Channel "C1") else None).

(** A host that resolves every name, the empty one included: the team
    [t] to ["team:t"], the channel [c] of team [id] to ["id/c"]. *)
Definition permissive_host (stored : configuration) : API :=
  Build_API
    (λ _, inl stored)
    (λ name, Some (Build_User ("user:" +:+ name)))
    (λ name, Some (Build_Team ("team:" +:+ name)))
    (λ teamId name _, Some (Build_Channel (teamId +:+ "/" +:+ name))).

(** A host that answers every lookup with a nil value and a nil error. *)
Definition silent_host (stored : configuration) : Host :=
  Build_Host (λ _, inl stored) (λ _, (None, None)) (λ _, (None, None))
             (λ _ _ _, (None, None)).

Definition snapshot (teamsChannels : string) : configuration :=
  Build_configuration "analytics" teamsChannels "bot" "http://icon".

(** * Properties *)

(** ** strings *)

Example Split_pairs : strings.Split "A/B,C/D" "," = ["A/B"; "C/D"].
Proof. reflexivity. Qed.

Example Split_trailing : strings.Split "A/" "/" = ["A"; ""].
Proof. reflexivity. Qed.

Example Split_empty : strings.Split "" "," = [""].
Proof. reflexivity. Qed.

Lemma Split_nonempty (s : string) (sep : ascii) : strings.Split s sep ≠ [].
Proof.
  destruct s as [|c s]; simpl; [discriminate|].
  destruct (Ascii.eqb c sep); [discriminate|].
  destruct (strings.Split s sep); discriminate.
Qed.

(** Go's [Split] allocates [Count(s, sep) + 1] substrings. *)
Lemma Split_length (s : string) (sep : ascii) :
  length (strings.Split s sep) = S (strings.Count s sep).
Proof.
  induction s as [|c s IH]; simpl; [reflexivity|].
  destruct (Ascii.eqb c sep); simpl; [by rewrite IH|].
  destruct (strings.Split s sep) eqn:E; simpl in *; [discriminate|done].
Qed.

(** ** Splitting and counting *)

Section splitting.

Lemma Split_cons_sep (s : string) (sep : ascii) :
  strings.Split (String sep s) sep = "" :: strings.Split s sep.
Proof. simpl. by rewrite Ascii.eqb_refl. Qed.

Lemma Split_cons_other (s : string) (c sep : ascii) :
  c ≠ sep →
  ∃ hd tl, strings.Split s sep = hd :: tl
           ∧ strings.Split (String c s) sep = String c hd :: tl.
Proof.
  intros Hne. apply Ascii.eqb_neq in Hne. simpl. rewrite Hne.
  destruct (strings.Split s sep) as [|hd tl] eqn:E.
  - by apply Split_nonempty in E.
  - by exists hd, tl.
Qed.

(** The parts contain no separator. *)
Lemma Split_parts_free (s : string) (sep : ascii) :
  Forall (λ part, strings.Count part sep = 0) (strings.Split s sep).
Proof.
  induction s as [|c s IH]; [by repeat constructor|].
  destruct (decide (c = sep)) as [->|Hne].
  - rewrite Split_cons_sep. by constructor.
  - destruct (Split_cons_other s c sep Hne) as (hd & tl & E & ->).
    rewrite E in IH. apply Forall_cons in IH as [Hhd Htl].
    constructor; [|done]. simpl. apply Ascii.eqb_neq in Hne. by rewrite Hne.
Qed.

(** Another byte occurs in the parts as often as in the whole. *)
Lemma Count_Split (s : string) (c sep : ascii) :
  c ≠ sep →
  sum_list ((λ part, strings.Count part c) <$> strings.Split s sep)
  = strings.Count s c.
Proof.
  intros Hc. induction s as [|a s IH]; [done|].
  destruct (decide (a = sep)) as [->|Hne].
  - rewrite Split_cons_sep, fmap_cons. cbn [sum_list sum_list_with].
    rewrite IH. simpl.
    apply not_eq_sym, Ascii.eqb_neq in Hc. by rewrite Hc.
  - destruct (Split_cons_other s a sep Hne) as (hd & tl & E & ->).
    rewrite E in IH. rewrite fmap_cons in *. cbn [sum_list sum_list_with] in *.
    simpl.
    rewrite <- IH. unfold id. lia.
Qed.

Lemma Count_zero_Split (s : string) (sep : ascii) :
  strings.Count s sep = 0 → strings.Split s sep = [s].
Proof.
  induction s as [|c s IH]; [done|]. simpl.
  destruct (Ascii.eqb c sep); [done|]. simpl. intros H. by rewrite IH.
Qed.

(** Joining the parts gives the string back. *)
Lemma Split_Join_parts (s : string) (sep : ascii) :
  Join (strings.Split s sep) sep = s
  ∧ Forall (λ part, strings.Count part sep = 0) (strings.Split s sep).
Proof.
  split; [|apply Split_parts_free].
  induction s as [|c s IH]; [done|].
  destruct (decide (c = sep)) as [->|Hne].
  - rewrite Split_cons_sep.
    destruct (strings.Split s sep) as [|hd tl] eqn:E;
      [by apply Split_nonempty in E|].
    change (Join ("" :: hd :: tl) sep) with (String sep (Join (hd :: tl) sep)).
    by rewrite IH.
  - destruct (Split_cons_other s c sep Hne) as (hd & tl & E & ->).
    rewrite E in IH. rewrite <- IH. by destruct tl.
Qed.

Lemma Count_app (a b : string) (c : ascii) :
  strings.Count (a +:+ b) c = strings.Count a c + strings.Count b c.
Proof. induction a as [|x a IH]; simpl; [done|]. rewrite IH. lia. Qed.

(** A separator after a part without separator ends that part. *)
Lemma Split_app_sep (t s : string) (sep : ascii) :
  strings.Count t sep = 0 →
  strings.Split (t +:+ String sep s) sep = t :: strings.Split s sep.
Proof.
  induction t as [|a t IH]; intros Hfree.
  - apply Split_cons_sep.
  - simpl in *. destruct (Ascii.eqb a sep); [done|]. by rewrite IH.
Qed.

End splitting.

(** ** Validation *)

Lemma isEmpty_true (s : string) : isEmpty s = true ↔ s = "".
Proof. unfold isEmpty. apply String.eqb_eq. Qed.

Lemma isEmpty_false (s : string) : isEmpty s = false ↔ s ≠ "".
Proof. unfold isEmpty. apply String.eqb_neq. Qed.

Lemma malformed_test (c : configuration) :
  negb (Nat.eqb (strings.Count (TeamsChannels c) "," + 1)
                (strings.Count (TeamsChannels c) "/")) = true ↔ malformed c.
Proof.
  unfold malformed. rewrite negb_true_iff. apply Nat.eqb_neq.
Qed.

Ltac split_checks :=
  repeat match goal with
    | |- context [isEmpty ?s] =>
        let E := fresh "E" in
        destruct (isEmpty s) eqn:E;
        [apply isEmpty_true in E | apply isEmpty_false in E]
    | |- context [negb (Nat.eqb ?a ?b)] =>
        let E := fresh "E" in
        destruct (negb (Nat.eqb a b)) eqn:E;
        [apply malformed_test in E
        | apply negb_false_iff, Nat.eqb_eq in E]
    end.

(** C6 (as the code has it): [IsValid] reports the first condition that
    applies, in the order empty [Username], empty [TeamsChannels],
    malformed [TeamsChannels] (comma count + 1 differs from the slash
    count), empty [BotUsername], empty [BotIconURL]; it returns [nil]
    exactly when none applies.  A snapshot with an empty required field is
    always rejected; the error is the one of the first condition that
    applies, so it names an empty field or is the format error, and it
    names a given empty field when no earlier condition applies. *)
Theorem IsValid_first_error (c : configuration) :
  (Username c = "" →
     IsValid c = Some "Need a Username to make posts as")
  ∧ (Username c ≠ "" → TeamsChannels c = "" →
     IsValid c = Some "Need TeamsChannels to post in")
  ∧ (Username c ≠ "" → TeamsChannels c ≠ "" → malformed c →
     IsValid c = Some "TeamsChannels must be in ofrm TeamName/ChannelName")
  ∧ (Username c ≠ "" → TeamsChannels c ≠ "" → ¬ malformed c →
     BotUsername c = "" →
     IsValid c = Some "Need BotUsername")
  ∧ (Username c ≠ "" → TeamsChannels c ≠ "" → ¬ malformed c →
     BotUsername c ≠ "" → BotIconURL c = "" →
     IsValid c = Some "Need BotIconURL")
  ∧ (IsValid c = None ↔
     Username c ≠ "" ∧ TeamsChannels c ≠ "" ∧ ¬ malformed c
     ∧ BotUsername c ≠ "" ∧ BotIconURL c ≠ "")
  ∧ (Username c = "" ∨ TeamsChannels c = "" ∨ BotUsername c = ""
     ∨ BotIconURL c = "" →
     (Username c = "" ∧ IsValid c = Some "Need a Username to make posts as")
     ∨ (TeamsChannels c = "" ∧ IsValid c = Some "Need TeamsChannels to post in")
     ∨ (malformed c
        ∧ IsValid c = Some "TeamsChannels must be in ofrm TeamName/ChannelName")
     ∨ (BotUsername c = "" ∧ IsValid c = Some "Need BotUsername")
     ∨ (BotIconURL c = "" ∧ IsValid c = Some "Need BotIconURL"))
  ∧ Contains "Need a Username to make posts as" "Username" = true
  ∧ Contains "Need TeamsChannels to post in" "TeamsChannels" = true
  ∧ Contains "Need BotUsername" "BotUsername" = true
  ∧ Contains "Need BotIconURL" "BotIconURL" = true.
Proof.
  assert (Hnone : IsValid c = None ↔
     Username c ≠ "" ∧ TeamsChannels c ≠ "" ∧ ¬ malformed c
     ∧ BotUsername c ≠ "" ∧ BotIconURL c ≠ "").
  { unfold IsValid, errors.New. split_checks; split;
      try discriminate; try tauto; intuition congruence. }
  split_and!; try reflexivity; try exact Hnone.
  1-5: unfold IsValid, errors.New; intros; split_checks;
       first [reflexivity | congruence | tauto].
  intros Hempty. unfold IsValid, errors.New. split_checks.
  all: first [ left; split; [assumption|reflexivity]
             | right; left; split; [assumption|reflexivity]
             | right; right; left; split; [assumption|reflexivity]
             | right; right; right; left; split; [assumption|reflexivity]
             | right; right; right; right; split; [assumption|reflexivity]
             | exfalso; intuition congruence ].
Qed.

(** C6, counterexample: the username is set, [TeamsChannels] is malformed
    and [BotUsername] is empty; validation fails with the format error,
    which does not name the empty field. *)
Lemma IsValid_names_other_than_empty_field :
  BotUsername (Build_configuration "u" "A/B,C" "" "i") = ""
  ∧ IsValid (Build_configuration "u" "A/B,C" "" "i")
    = Some "TeamsChannels must be in ofrm TeamName/ChannelName"
  ∧ Contains "TeamsChannels must be in ofrm TeamName/ChannelName" "BotUsername"
    = false.
Proof. by split_and!. Qed.


(** ** The guarded pointer *)

Ltac unfold_M :=
  unfold getConfiguration, setConfiguration, getPlugin, putPlugin, record,
    alloc, load, store, panic, mbind, M_bind, mret, M_ret in *;
  simpl in *.

Lemma fresh_cell_free (h : gmap positive configuration) :
  h !! fresh (dom h) = None.
Proof. apply not_elem_of_dom, is_fresh. Qed.

Lemma wf_initial (botUserID : string) (channelsID : list string) :
  wf (initial botUserID channelsID).
Proof. by left. Qed.

Lemma wf_published (c : configuration) : wf (published c).
Proof. right. by exists c. Qed.

(** C8: [getConfiguration] always returns, and leaves the plugin, the log
    and every existing cell as they were.  With a published snapshot it
    returns the stored pointer and the machine is untouched; with the nil
    pointer it returns the address of a zero-valued snapshot. *)
Theorem getConfiguration_total_pure (m : machine) :
  ∃ ptr m',
    getConfiguration m = Done ptr m'
    ∧ plugin m' = plugin m
    ∧ calls m' = calls m
    ∧ (∀ l c, heap m !! l = Some c → heap m' !! l = Some c)
    ∧ match Plugin_configuration (plugin m) with
      | Some l => ptr = Some l ∧ m' = m
      | None => deref (heap m') ptr = Some zero_configuration
      end.
Proof.
  unfold_M. destruct (Plugin_configuration (plugin m)) as [l|] eqn:Hp.
  - exists (Some l), m. by split_and!.
  - eexists _, _. split; [reflexivity|]. simpl. split_and!; try done.
    + intros l c Hl. rewrite lookup_insert_ne; [done|].
      intros <-. by rewrite fresh_cell_free in Hl.
    + apply lookup_insert_eq.
Qed.

(** C9: [setConfiguration(nil)] never panics, whatever is stored: it sets
    the stored pointer to nil and touches nothing else, and the next
    [getConfiguration] returns a zero-valued snapshot. *)
Theorem setConfiguration_nil (m : machine) :
  ∃ m',
    setConfiguration None m = Done tt m'
    ∧ Plugin_configuration (plugin m') = None
    ∧ BotUserID (plugin m') = BotUserID (plugin m)
    ∧ ChannelsID (plugin m') = ChannelsID (plugin m)
    ∧ heap m' = heap m
    ∧ ∃ ptr m'',
        getConfiguration m' = Done ptr m''
        ∧ deref (heap m'') ptr = Some zero_configuration.
Proof.
  eexists. split; [reflexivity|]. split_and!; try reflexivity.
  eexists _, _. split; [reflexivity|]. simpl. apply lookup_insert_eq.
Qed.

(** The guard of [setConfiguration] looks at the struct type, which has
    four fields. *)
Lemma NumField_configuration (c : configuration) : NumField c = 4.
Proof. reflexivity. Qed.

(** C1 (as the code has it): publishing the very pointer that is already
    stored panics, whatever the fields of the snapshot hold; the exemption
    of the guard is for a struct type without fields, which [configuration]
    is not. *)
Theorem setConfiguration_same_pointer_panics
    (m : machine) (l : positive) (c : configuration) :
  Plugin_configuration (plugin m) = Some l →
  heap m !! l = Some c →
  setConfiguration (Some l) m
  = Panic "setConfiguration called with the existing configuration".
Proof.
  intros Hp Hl. unfold_M. rewrite Hp.
  rewrite bool_decide_eq_true_2 by done.
  by rewrite Hl.
Qed.

Lemma setConfiguration_same_pointer_panics_witness :
  setConfiguration (Some 1%positive) (published (Build_configuration "u" "A/B" "b" "i"))
  = Panic "setConfiguration called with the existing configuration".
Proof.
  apply (setConfiguration_same_pointer_panics _ 1%positive
           (Build_configuration "u" "A/B" "b" "i")); reflexivity.
Defined.

(** C1, counterexample: the stored snapshot is the zero value (all four
    fields empty) and the same pointer is published again; the call panics
    instead of returning. *)
Lemma setConfiguration_zero_value_not_exempt :
  deref (heap (published zero_configuration))
        (Plugin_configuration (plugin (published zero_configuration)))
  = Some zero_configuration
  ∧ ¬ ∃ m', setConfiguration (Plugin_configuration (plugin (published zero_configuration)))
                             (published zero_configuration) = Done tt m'.
Proof.
  split; [reflexivity|]. intros [m' H]. vm_compute in H. discriminate.
Qed.

(** ** One iteration of the loop, on any host *)

Section any_host.
Variable host : Host.

Ltac unfold_host :=
  unfold API_GetTeamByName, API_GetChannelByName, API_GetUserByUsername,
    indirect, panic, record, logged, mbind, M_bind, mret, M_ret;
  simpl.

Lemma host_loop_bad_format ps rest channelsID m :
  length (strings.Split ps "/") ≠ 2 →
  parseChannels_loop host (ps :: rest) channelsID m
  = Done (channelsID, Some ("Bad formatted TeamsChannels: " +:+ ps)) m.
Proof.
  intros H. simpl. apply Nat.eqb_neq in H. by rewrite H.
Qed.

Lemma host_loop_team_error ps rest channelsID m t c team e :
  strings.Split ps "/" = [t; c] →
  host_GetTeamByName host t = (team, Some e) →
  parseChannels_loop host (ps :: rest) channelsID m
  = Done (channelsID, Some ("Unable to find team with configured team: " +:+ t))
         (Build_machine (heap m) (plugin m) (calls m ++ [CallGetTeamByName t])).
Proof.
  intros Hv Ht. simpl. rewrite Hv. unfold_host. by rewrite Ht.
Qed.

Lemma host_loop_team_nil ps rest channelsID m t c :
  strings.Split ps "/" = [t; c] →
  host_GetTeamByName host t = (None, None) →
  parseChannels_loop host (ps :: rest) channelsID m = Panic nil_dereference.
Proof.
  intros Hv Ht. simpl. rewrite Hv. unfold_host. by rewrite Ht.
Qed.

Lemma host_loop_channel_error ps rest channelsID m t c team channel e :
  strings.Split ps "/" = [t; c] →
  host_GetTeamByName host t = (Some team, None) →
  host_GetChannelByName host (Team_Id team) c false = (channel, Some e) →
  parseChannels_loop host (ps :: rest) channelsID m
  = Done (channelsID,
          Some ("Unable to find channel with configured channel: " +:+ c))
         (Build_machine (heap m) (plugin m)
            (calls m ++ [CallGetTeamByName t;
                         CallGetChannelByName (Team_Id team) c false])).
Proof.
  intros Hv Ht Hc. simpl. rewrite Hv. unfold_host. rewrite Ht. simpl.
  rewrite Hc. by rewrite <- app_assoc.
Qed.

Lemma host_loop_channel_nil ps rest channelsID m t c team :
  strings.Split ps "/" = [t; c] →
  host_GetTeamByName host t = (Some team, None) →
  host_GetChannelByName host (Team_Id team) c false = (None, None) →
  parseChannels_loop host (ps :: rest) channelsID m = Panic nil_dereference.
Proof.
  intros Hv Ht Hc. simpl. rewrite Hv. unfold_host. rewrite Ht. simpl.
  by rewrite Hc.
Qed.

Lemma host_loop_resolved ps rest channelsID m t c team channel :
  strings.Split ps "/" = [t; c] →
  host_GetTeamByName host t = (Some team, None) →
  host_GetChannelByName host (Team_Id team) c false = (Some channel, None) →
  parseChannels_loop host (ps :: rest) channelsID m
  = parseChannels_loop host rest (channelsID ++ [Channel_Id channel])
      (Build_machine (heap m) (plugin m)
         (calls m ++ [CallGetTeamByName t;
                      CallGetChannelByName (Team_Id team) c false])).
Proof.
  intros Hv Ht Hc. simpl. rewrite Hv. unfold_host. rewrite Ht. simpl.
  rewrite Hc. by rewrite <- app_assoc.
Qed.

End any_host.

(** ** The resolution loop *)

Section resolution.
Variable api : API.

Ltac unfold_API :=
  unfold API_GetTeamByName, API_GetChannelByName, API_GetUserByUsername,
    record, logged, mbind, M_bind, mret, M_ret;
  simpl.

Lemma logged_nil (m : machine) : logged m [] = m.
Proof. destruct m. unfold logged. simpl. by rewrite app_nil_r. Qed.

Lemma logged_logged (m : machine) (evs evs' : list call) :
  logged (logged m evs) evs' = logged m (evs ++ evs').
Proof. unfold logged. simpl. by rewrite app_assoc. Qed.

(** A pair-string either has some other number of parts than two, or is
    [t/c]. *)
Lemma two_parts_dec (ps : string) :
  length (strings.Split ps "/") ≠ 2 ∨ ∃ t c, strings.Split ps "/" = [t; c].
Proof.
  destruct (strings.Split ps "/") as [|t [|c [|x v]]]; simpl; eauto.
Qed.

(** The four ways through one iteration of the loop. *)

Lemma loop_bad_format ps rest channelsID m :
  length (strings.Split ps "/") ≠ 2 →
  parseChannels_loop api (ps :: rest) channelsID m
  = Done (channelsID, Some ("Bad formatted TeamsChannels: " +:+ ps)) m.
Proof.
  intros H. simpl. apply Nat.eqb_neq in H. by rewrite H.
Qed.

Lemma loop_no_team ps rest channelsID m t c :
  strings.Split ps "/" = [t; c] →
  GetTeamByName api t = None →
  parseChannels_loop api (ps :: rest) channelsID m
  = Done (channelsID, Some ("Unable to find team with configured team: " +:+ t))
         (logged m [CallGetTeamByName t]).
Proof.
  intros Hv Ht. simpl. rewrite Hv. unfold_API. by rewrite Ht.
Qed.

Lemma loop_no_channel ps rest channelsID m t c team :
  strings.Split ps "/" = [t; c] →
  GetTeamByName api t = Some team →
  GetChannelByName api (Team_Id team) c false = None →
  parseChannels_loop api (ps :: rest) channelsID m
  = Done (channelsID,
          Some ("Unable to find channel with configured channel: " +:+ c))
         (logged m [CallGetTeamByName t;
                    CallGetChannelByName (Team_Id team) c false]).
Proof.
  intros Hv Ht Hc. simpl. rewrite Hv. unfold_API. rewrite Ht. simpl.
  rewrite Hc. by rewrite <- app_assoc.
Qed.

Lemma loop_resolved ps rest channelsID m t c team channel :
  strings.Split ps "/" = [t; c] →
  GetTeamByName api t = Some team →
  GetChannelByName api (Team_Id team) c false = Some channel →
  parseChannels_loop api (ps :: rest) channelsID m
  = parseChannels_loop api rest (channelsID ++ [Channel_Id channel])
      (logged m [CallGetTeamByName t;
                 CallGetChannelByName (Team_Id team) c false]).
Proof.
  intros Hv Ht Hc. simpl. rewrite Hv. unfold_API. rewrite Ht. simpl.
  rewrite Hc. by rewrite <- app_assoc.
Qed.

(** The loop always returns; it touches nothing but the log, and what it
    returns and logs does not depend on the machine it runs in. *)
Lemma loop_total pairs : ∀ channelsID,
  ∃ ids err evs, ∀ m,
    parseChannels_loop api pairs channelsID m = Done (ids, err) (logged m evs).
Proof.
  induction pairs as [|ps rest IH]; intros channelsID.
  - exists channelsID, None, []. intros m. simpl.
    unfold mret, M_ret. by rewrite logged_nil.
  - destruct (two_parts_dec ps) as [Hbad|(t & c & Hv)].
    { eexists _, _, []. intros m. rewrite logged_nil.
      by apply loop_bad_format. }
    destruct (GetTeamByName api t) as [team|] eqn:Ht.
    2:{ eexists _, _, _. intros m. by eapply loop_no_team. }
    destruct (GetChannelByName api (Team_Id team) c false) as [channel|] eqn:Hc.
    2:{ eexists _, _, _. intros m. by eapply loop_no_channel. }
    destruct (IH (channelsID ++ [Channel_Id channel])) as (ids & err & evs & Hrun).
    eexists ids, err, _. intros m.
    erewrite loop_resolved by done. rewrite Hrun. by rewrite logged_logged.
Qed.

(** The loop over [pre ++ post] is the loop over [pre], followed, when that
    one went through, by the loop over [post]. *)
Lemma loop_app pre post : ∀ channelsID m,
  parseChannels_loop api (pre ++ post) channelsID m
  = match parseChannels_loop api pre channelsID m with
    | Done (ids, None) m1 => parseChannels_loop api post ids m1
    | other => other
    end.
Proof.
  induction pre as [|ps pre IH]; intros channelsID m; [done|].
  rewrite <- app_comm_cons.
  destruct (two_parts_dec ps) as [Hbad|(t & c & Hv)].
  { by rewrite !loop_bad_format by done. }
  destruct (GetTeamByName api t) as [team|] eqn:Ht.
  2:{ by erewrite !loop_no_team by done. }
  destruct (GetChannelByName api (Team_Id team) c false) as [channel|] eqn:Hc.
  2:{ by erewrite !loop_no_channel by done. }
  erewrite !loop_resolved by done. apply IH.
Qed.

(** When every pair-string resolves, the loop appends the identifiers in
    the order of the pair-strings and makes the two lookups of each. *)
Lemma loop_all_resolved pairs : ∀ ids channelsID m,
  Forall2 (resolves api) pairs ids →
  parseChannels_loop api pairs channelsID m
  = Done (channelsID ++ ids, None) (logged m (concat (lookups api <$> pairs))).
Proof.
  induction pairs as [|ps rest IH]; intros ids channelsID m Hall.
  - apply Forall2_nil_inv_l in Hall as ->. simpl.
    unfold mret, M_ret. by rewrite logged_nil, app_nil_r.
  - apply Forall2_cons_inv_l in Hall as (id & ids' & Hps & Hrest & ->).
    destruct Hps as (t & c & team & channel & Hv & Ht & Hc & <-).
    erewrite loop_resolved by done. erewrite IH by done.
    rewrite logged_logged. simpl. unfold lookups at 2. rewrite Hv. simpl.
    rewrite Ht. by rewrite <- app_assoc.
Qed.

(** Conversely a run without error has resolved every pair-string. *)
Lemma loop_success pairs : ∀ channelsID m ids m',
  parseChannels_loop api pairs channelsID m = Done (ids, None) m' →
  ∃ new, ids = channelsID ++ new ∧ Forall2 (resolves api) pairs new.
Proof.
  induction pairs as [|ps rest IH]; intros channelsID m ids m' Hrun.
  - simpl in Hrun. unfold mret, M_ret in Hrun. simplify_eq.
    exists []. by rewrite app_nil_r.
  - destruct (two_parts_dec ps) as [Hbad|(t & c & Hv)].
    { by rewrite loop_bad_format in Hrun. }
    destruct (GetTeamByName api t) as [team|] eqn:Ht.
    2:{ by erewrite loop_no_team in Hrun. }
    destruct (GetChannelByName api (Team_Id team) c false) as [channel|] eqn:Hc.
    2:{ by erewrite loop_no_channel in Hrun. }
    erewrite loop_resolved in Hrun by done.
    apply IH in Hrun as (new & -> & Hall).
    exists (Channel_Id channel :: new). split.
    + by rewrite <- app_assoc.
    + constructor; [|done]. by exists t, c, team, channel.
Qed.

(** A pair-string with two parts has its team looked up, then its channel,
    whatever the parts are. *)
Lemma loop_two_parts ps rest channelsID m t c :
  strings.Split ps "/" = [t; c] →
  parseChannels_loop api (ps :: rest) channelsID m
  = match GetTeamByName api t with
    | None =>
        Done (channelsID,
              Some ("Unable to find team with configured team: " +:+ t))
             (logged m [CallGetTeamByName t])
    | Some team =>
        match GetChannelByName api (Team_Id team) c false with
        | None =>
            Done (channelsID,
                  Some ("Unable to find channel with configured channel: " +:+ c))
                 (logged m [CallGetTeamByName t;
                            CallGetChannelByName (Team_Id team) c false])
        | Some channel =>
            parseChannels_loop api rest (channelsID ++ [Channel_Id channel])
              (logged m [CallGetTeamByName t;
                         CallGetChannelByName (Team_Id team) c false])
        end
    end.
Proof.
  intros Hv.
  destruct (GetTeamByName api t) as [team|] eqn:Ht.
  2:{ by erewrite loop_no_team. }
  destruct (GetChannelByName api (Team_Id team) c false) as [channel|] eqn:Hc.
  2:{ by erewrite loop_no_channel. }
  by erewrite loop_resolved.
Qed.

End resolution.

(** On any host too, the loop over [pre ++ post] is the loop over [pre],
    followed by the loop over [post] when the first returned without
    error. *)
Lemma host_loop_app (host : Host) pre post : ∀ channelsID m,
  parseChannels_loop host (pre ++ post) channelsID m
  = match parseChannels_loop host pre channelsID m with
    | Done (ids, None) m1 => parseChannels_loop host post ids m1
    | other => other
    end.
Proof.
  induction pre as [|ps pre IH]; intros channelsID m; [done|].
  rewrite <- app_comm_cons.
  destruct (two_parts_dec ps) as [Hbad|(t & c & Hv)].
  { by rewrite !host_loop_bad_format by done. }
  destruct (host_GetTeamByName host t) as [team [e|]] eqn:Ht.
  { by erewrite !host_loop_team_error by done. }
  destruct team as [team|].
  2:{ by erewrite !host_loop_team_nil by done. }
  destruct (host_GetChannelByName host (Team_Id team) c false)
    as [channel [e|]] eqn:Hc.
  { by erewrite !host_loop_channel_error by done. }
  destruct channel as [channel|].
  2:{ by erewrite !host_loop_channel_nil by done. }
  erewrite !host_loop_resolved by done. apply IH.
Qed.

(** ** The change hook *)

Section hook.
Variable api : API.

Ltac unfold_hook :=
  unfold OnConfigurationChange, API_LoadPluginConfiguration,
    API_GetUserByUsername, setConfiguration, getPlugin, putPlugin, record,
    alloc, load, store, mbind, M_bind, mret, M_ret;
  simpl.

(** The address of the fresh cell is not the one the plugin holds. *)
Lemma wf_fresh (m : machine) :
  wf m → Plugin_configuration (plugin m) ≠ Some (fresh (dom (heap m))).
Proof.
  intros [Hnil|[c Hc]] Heq; rewrite Heq in *; [done|].
  simpl in Hc. by rewrite fresh_cell_free in Hc.
Qed.

Lemma OnConfigurationChange_load_failed (m : machine) (e : string) :
  LoadPluginConfiguration api zero_configuration = inr e →
  OnConfigurationChange api m
  = Done (Some ("failed to load plugin configuration: " +:+ e))
      (Build_machine (<[fresh (dom (heap m)) := zero_configuration]> (heap m))
                     (plugin m) (calls m ++ [CallLoadPluginConfiguration])).
Proof.
  intros Hload. unfold_hook. rewrite lookup_insert_eq. simpl.
  by rewrite Hload.
Qed.

(** Up to the validation: the snapshot is loaded and published, and the
    rest of the hook runs on [republished m c]. *)
Lemma OnConfigurationChange_published (m : machine) (c : configuration) :
  wf m →
  LoadPluginConfiguration api zero_configuration = inl c →
  OnConfigurationChange api m
  = match IsValid c with
    | Some err => Done (Some err) (republished m c)
    | None =>
        match GetUserByUsername api (Username c) with
        | None =>
            Done (Some ("Unable to find user with configured username: "
                        +:+ Username c))
                 (logged (republished m c) [CallGetUserByUsername (Username c)])
        | Some user =>
            match parseChannelsFromConfig api c
                    (derived (logged (republished m c)
                                     [CallGetUserByUsername (Username c)])
                             (User_Id user) (ChannelsID (plugin m))) with
            | Done (channelsID, Some err) m' => Done (Some err) m'
            | Done (channelsID, None) m' =>
                Done None (derived m' (BotUserID (plugin m')) channelsID)
            | Panic msg => Panic msg
            end
        end
    end.
Proof.
  intros Hwf Hload. apply wf_fresh in Hwf. unfold_hook.
  rewrite lookup_insert_eq. simpl. rewrite Hload. simpl.
  rewrite lookup_insert_eq. simpl.
  rewrite (bool_decide_eq_false_2 (Plugin_configuration (plugin m) = _)) by done.
  simpl. rewrite lookup_insert_eq.
  destruct (IsValid c) as [err|]; [done|].
  destruct (GetUserByUsername api (Username c)) as [user|]; [|done].
  unfold derived, logged, republished. simpl.
  destruct (parseChannelsFromConfig api c _) as [[ids [err|]] m'|msg]; done.
Qed.

(** The hook never panics on a well-formed machine, and the machine it
    leaves is well-formed again: well-formedness is an invariant of the
    plugin. *)
Lemma OnConfigurationChange_total (m : machine) :
  wf m → ∃ err m', OnConfigurationChange api m = Done err m' ∧ wf m'.
Proof.
  intros Hwf.
  destruct (LoadPluginConfiguration api zero_configuration) as [c|e] eqn:Hload.
  2:{ erewrite OnConfigurationChange_load_failed by done.
      eexists _, _. split; [reflexivity|].
      destruct Hwf as [Hnil|[c Hc]]; [by left|right]. exists c.
      unfold wf, deref in *. simpl.
      destruct (Plugin_configuration (plugin m)) as [l|]; [|done].
      rewrite lookup_insert_ne; [done|].
      intros <-. by rewrite fresh_cell_free in Hc. }
  rewrite (OnConfigurationChange_published _ c) by done.
  destruct (IsValid c).
  { eexists _, _. split; [reflexivity|]. right. exists c. apply lookup_insert_eq. }
  destruct (GetUserByUsername api (Username c)).
  2:{ eexists _, _. split; [reflexivity|]. right. exists c. apply lookup_insert_eq. }
  unfold parseChannelsFromConfig.
  destruct (loop_total api (strings.Split (TeamsChannels c) ",") [])
    as (ids & [err|] & evs & ->).
  - eexists _, _. split; [reflexivity|]. right. exists c. apply lookup_insert_eq.
  - eexists _, _. split; [reflexivity|]. right. exists c. apply lookup_insert_eq.
Qed.

End hook.

(** ** Resolution of [TeamsChannels] *)

(** C7: when the host resolves team ["Sales"] to ["T1"] and channel
    ["General"] of ["T1"] to ["C1"], [TeamsChannels = "Sales/General"]
    yields [["C1"]].  In general the call succeeds exactly when every
    pair-string resolves, and the identifiers come in the order of the
    pair-strings. *)
Theorem parseChannels_in_order (api : API) (c : configuration) (m : machine) :
  (TeamsChannels c = "Sales/General" →
   GetTeamByName api "Sales" = Some (Build_Team "T1") →
   GetChannelByName api "T1" "General" false = Some (Build_Channel "C1") →
   parseChannelsFromConfig api c m
   = Done (["C1"], None)
          (logged m [CallGetTeamByName "Sales";
                     CallGetChannelByName "T1" "General" false]))
  ∧ (∀ ids,
       Forall2 (resolves api) (strings.Split (TeamsChannels c) ",") ids ↔
       ∃ m', parseChannelsFromConfig api c m = Done (ids, None) m').
Proof.
  unfold parseChannelsFromConfig. split.
  - intros -> Ht Hc.
    change (strings.Split "Sales/General" ",") with ["Sales/General"].
    erewrite (loop_resolved api _ _ _ _ "Sales" "General") by done.
    reflexivity.
  - intros ids. split.
    + intros Hall. eexists. by rewrite (loop_all_resolved _ _ ids).
    + intros [m' Hrun]. by apply loop_success in Hrun as (new & -> & Hall).
Qed.

Lemma parseChannels_in_order_witness :
  parseChannelsFromConfig (sales_host (snapshot "Sales/General"))
    (snapshot "Sales/General") (initial "" [])
  = Done (["C1"], None)
         (logged (initial "" [])
                 [CallGetTeamByName "Sales";
                  CallGetChannelByName "T1" "General" false]).
Proof.
  apply (parseChannels_in_order (sales_host (snapshot "Sales/General"))
           (snapshot "Sales/General") (initial "" [])); reflexivity.
Defined.

(** C2 (as the code has it): a pair-string that does not split on ['/']
    into exactly two parts makes the call fail, for every host: the run is
    that of the pair-strings before it and, if those went through, ends
    there with the format error, no lookup having been made for the bad
    pair-string or any later one.  On a host that honours the contract the
    call then returns an error; on any host it never returns [nil].  A pair-string with two parts is never
    rejected for its format, whatever the parts are: its first part is
    looked up as a team and its second as a channel, also when one of them
    is empty, and the host decides.  ["A/B,C/D"] splits into the parts
    [A], [B] and [C], [D], looked up in this order; ["A/B,C"] fails for
    every host. *)
Theorem parseChannels_bad_format (api : API) (m : machine) :
  (∀ c pre bad post,
     strings.Split (TeamsChannels c) "," = pre ++ bad :: post →
     length (strings.Split bad "/") ≠ 2 →
     parseChannelsFromConfig api c m
     = match parseChannels_loop api pre [] m with
       | Done (ids, None) m1 =>
           Done (ids, Some ("Bad formatted TeamsChannels: " +:+ bad)) m1
       | other => other
       end
     ∧ ∃ ids err m', parseChannelsFromConfig api c m = Done (ids, Some err) m')
  ∧ (∀ (host : Host) c pre bad post,
       strings.Split (TeamsChannels c) "," = pre ++ bad :: post →
       length (strings.Split bad "/") ≠ 2 →
       parseChannelsFromConfig host c m
       = match parseChannels_loop host pre [] m with
         | Done (ids, None) m1 =>
             Done (ids, Some ("Bad formatted TeamsChannels: " +:+ bad)) m1
         | other => other
         end
       ∧ ∀ ids m', parseChannelsFromConfig host c m ≠ Done (ids, None) m')
  ∧ (∀ c pre ps post t ch ids,
       strings.Split (TeamsChannels c) "," = pre ++ ps :: post →
       Forall2 (resolves api) pre ids →
       strings.Split ps "/" = [t; ch] →
       parseChannelsFromConfig api c m
       = match GetTeamByName api t with
         | None =>
             Done (ids, Some ("Unable to find team with configured team: " +:+ t))
                  (logged m (concat (lookups api <$> pre) ++ [CallGetTeamByName t]))
         | Some team =>
             match GetChannelByName api (Team_Id team) ch false with
             | None =>
                 Done (ids,
                       Some ("Unable to find channel with configured channel: "
                             +:+ ch))
                      (logged m (concat (lookups api <$> pre)
                                 ++ [CallGetTeamByName t;
                                     CallGetChannelByName (Team_Id team) ch false]))
             | Some channel =>
                 parseChannels_loop api post (ids ++ [Channel_Id channel])
                   (logged m (concat (lookups api <$> pre)
                              ++ [CallGetTeamByName t;
                                  CallGetChannelByName (Team_Id team) ch false]))
             end
         end)
  ∧ (∀ c ch team channel,
       TeamsChannels c = "/" +:+ ch →
       strings.Count ch "/" = 0 →
       strings.Count ch "," = 0 →
       GetTeamByName api "" = Some team →
       GetChannelByName api (Team_Id team) ch false = Some channel →
       parseChannelsFromConfig api c m
       = Done ([Channel_Id channel], None)
           (logged m [CallGetTeamByName "";
                      CallGetChannelByName (Team_Id team) ch false]))
  ∧ (∀ c t team channel,
       TeamsChannels c = t +:+ "/" →
       strings.Count t "/" = 0 →
       strings.Count t "," = 0 →
       GetTeamByName api t = Some team →
       GetChannelByName api (Team_Id team) "" false = Some channel →
       parseChannelsFromConfig api c m
       = Done ([Channel_Id channel], None)
           (logged m [CallGetTeamByName t;
                      CallGetChannelByName (Team_Id team) "" false]))
  ∧ (λ ps, strings.Split ps "/") <$> strings.Split "A/B,C/D" ","
    = [["A"; "B"]; ["C"; "D"]]
  ∧ (∀ tA tC cB cD,
       GetTeamByName api "A" = Some tA →
       GetChannelByName api (Team_Id tA) "B" false = Some cB →
       GetTeamByName api "C" = Some tC →
       GetChannelByName api (Team_Id tC) "D" false = Some cD →
       parseChannelsFromConfig api (snapshot "A/B,C/D") m
       = Done ([Channel_Id cB; Channel_Id cD], None)
           (logged m [CallGetTeamByName "A";
                      CallGetChannelByName (Team_Id tA) "B" false;
                      CallGetTeamByName "C";
                      CallGetChannelByName (Team_Id tC) "D" false]))
  ∧ (∃ ids err m',
       parseChannelsFromConfig api (snapshot "A/B,C") m = Done (ids, Some err) m').
Proof.
  assert (Hgen : ∀ c pre bad post,
     strings.Split (TeamsChannels c) "," = pre ++ bad :: post →
     length (strings.Split bad "/") ≠ 2 →
     parseChannelsFromConfig api c m
     = match parseChannels_loop api pre [] m with
       | Done (ids, None) m1 =>
           Done (ids, Some ("Bad formatted TeamsChannels: " +:+ bad)) m1
       | other => other
       end
     ∧ ∃ ids err m', parseChannelsFromConfig api c m = Done (ids, Some err) m').
  { intros c pre bad post Hsplit Hbad. unfold parseChannelsFromConfig.
    rewrite Hsplit, loop_app.
    destruct (loop_total api pre []) as (ids & err & evs & Hpre).
    rewrite Hpre. destruct err as [err|]; [eauto 6|].
    rewrite loop_bad_format by done. eauto 6. }
  assert (Htwo : ∀ c pre ps post t ch ids,
       strings.Split (TeamsChannels c) "," = pre ++ ps :: post →
       Forall2 (resolves api) pre ids →
       strings.Split ps "/" = [t; ch] →
       parseChannelsFromConfig api c m
       = match GetTeamByName api t with
         | None =>
             Done (ids, Some ("Unable to find team with configured team: " +:+ t))
                  (logged m (concat (lookups api <$> pre) ++ [CallGetTeamByName t]))
         | Some team =>
             match GetChannelByName api (Team_Id team) ch false with
             | None =>
                 Done (ids,
                       Some ("Unable to find channel with configured channel: "
                             +:+ ch))
                      (logged m (concat (lookups api <$> pre)
                                 ++ [CallGetTeamByName t;
                                     CallGetChannelByName (Team_Id team) ch false]))
             | Some channel =>
                 parseChannels_loop api post (ids ++ [Channel_Id channel])
                   (logged m (concat (lookups api <$> pre)
                              ++ [CallGetTeamByName t;
                                  CallGetChannelByName (Team_Id team) ch false]))
             end
         end).
  { intros c pre ps post t ch ids Hsplit Hpre Hv. unfold parseChannelsFromConfig.
    rewrite Hsplit, loop_app, (loop_all_resolved api pre ids) by done.
    rewrite (loop_two_parts api ps post _ _ t ch) by done.
    destruct (GetTeamByName api t) as [team|]; [|by rewrite logged_logged].
    destruct (GetChannelByName api (Team_Id team) ch false);
      by rewrite logged_logged. }
  split_and!; [exact Hgen| |exact Htwo| | |reflexivity| |].
  - intros host c pre bad post Hsplit Hbad. unfold parseChannelsFromConfig.
    rewrite Hsplit, host_loop_app.
    destruct (parseChannels_loop host pre [] m) as [[ids [err|]] m1|msg];
      [done| |done].
    by rewrite host_loop_bad_format.
  - intros c ch team channel Htc Hslash Hcomma Ht Hc.
    rewrite (Htwo c [] ("/" +:+ ch) [] "" ch []).
    + rewrite Ht, Hc. simpl. unfold mret, M_ret. reflexivity.
    + rewrite Htc. by apply Count_zero_Split.
    + constructor.
    + change ("/" +:+ ch) with (String "/" ch).
      by rewrite Split_cons_sep, Count_zero_Split.
  - intros c t team channel Htc Hslash Hcomma Ht Hc.
    rewrite (Htwo c [] (t +:+ "/") [] t "" []).
    + rewrite Ht, Hc. simpl. unfold mret, M_ret. reflexivity.
    + rewrite Htc. apply Count_zero_Split. rewrite Count_app, Hcomma. done.
    + constructor.
    + by rewrite Split_app_sep.
  - intros tA tC cB cD HtA HcB HtC HcD. unfold parseChannelsFromConfig.
    rewrite (loop_all_resolved api _ [Channel_Id cB; Channel_Id cD]).
    + simpl. unfold lookups. simpl. by rewrite HtA, HtC.
    + repeat constructor.
      * by exists "A", "B", tA, cB.
      * by exists "C", "D", tC, cD.
  - apply (Hgen (snapshot "A/B,C") ["A/B"] "C" []); [reflexivity|]. simpl. lia.
Qed.

(** C2, counterexample: the pair-string ["/B"] splits into an empty team
    name and ["B"], so not into two non-empty parts, and yet the call goes
    through on a host that resolves the empty team name. *)
Lemma parseChannels_empty_part_accepted :
  strings.Split "/B" "/" = [""; "B"]
  ∧ parseChannelsFromConfig (permissive_host (snapshot "/B")) (snapshot "/B")
      (initial "" [])
    = Done (["team:/B"], None)
        (logged (initial "" [])
                [CallGetTeamByName ""; CallGetChannelByName "team:" "B" false]).
Proof. split; reflexivity. Qed.

Lemma parseChannels_bad_format_witness :
  ∃ ids err m',
    parseChannelsFromConfig (sales_host (snapshot "Sales/General,Sales"))
      (snapshot "Sales/General,Sales") (initial "" [])
    = Done (ids, Some err) m'.
Proof.
  apply (proj1 (parseChannels_bad_format
                  (sales_host (snapshot "Sales/General,Sales")) (initial "" []))
           (snapshot "Sales/General,Sales") ["Sales/General"] "Sales" []).
  - reflexivity.
  - simpl. lia.
Defined.

(** C10: a snapshot can pass validation and still not parse: with
    [TeamsChannels = "A/B/C,D"] (one comma, two slashes) [IsValid] returns
    [nil], and [parseChannelsFromConfig] fails on every host, at the first
    pair-string and before any lookup. *)
Theorem valid_but_unparseable :
  ∃ c,
    TeamsChannels c = "A/B/C,D"
    ∧ IsValid c = None
    ∧ ∀ api m,
        parseChannelsFromConfig api c m
        = Done ([], Some "Bad formatted TeamsChannels: A/B/C") m.
Proof.
  exists (snapshot "A/B/C,D"). split_and!; [reflexivity..|].
  intros api m. unfold parseChannelsFromConfig.
  change (strings.Split (TeamsChannels (snapshot "A/B/C,D")) ",")
    with ["A/B/C"; "D"].
  rewrite host_loop_bad_format; [done|]. simpl. lia.
Qed.

(** C5: when the team of some pair-string is unknown to the host, the
    call fails; the lookups made are those of the pair-strings before it
    and, if those went through, the one team lookup that fails: no channel
    lookup is made for that pair-string.  The change hook then returns an
    error and leaves [ChannelsID] as it was, so that the identifiers
    resolved for the earlier pair-strings are dropped. *)
Theorem unresolvable_team_stops_resolution
    (api : API) (m : machine) (c : configuration) (pre post : list string)
    (ps t ch : string) :
  wf m →
  LoadPluginConfiguration api zero_configuration = inl c →
  strings.Split (TeamsChannels c) "," = pre ++ ps :: post →
  strings.Split ps "/" = [t; ch] →
  GetTeamByName api t = None →
  (∀ m0,
     parseChannelsFromConfig api c m0
     = match parseChannels_loop api pre [] m0 with
       | Done (ids, None) m1 =>
           Done (ids, Some ("Unable to find team with configured team: " +:+ t))
                (logged m1 [CallGetTeamByName t])
       | other => other
       end)
  ∧ (∀ m0, ∃ ids err m1,
       parseChannelsFromConfig api c m0 = Done (ids, Some err) m1)
  ∧ ∃ err m',
      OnConfigurationChange api m = Done (Some err) m'
      ∧ ChannelsID (plugin m') = ChannelsID (plugin m).
Proof.
  intros Hwf Hload Hsplit Hv Ht.
  assert (Hrun : ∀ m0,
     parseChannelsFromConfig api c m0
     = match parseChannels_loop api pre [] m0 with
       | Done (ids, None) m1 =>
           Done (ids, Some ("Unable to find team with configured team: " +:+ t))
                (logged m1 [CallGetTeamByName t])
       | other => other
       end).
  { intros m0. unfold parseChannelsFromConfig. rewrite Hsplit, loop_app.
    destruct (parseChannels_loop api pre [] m0) as [[ids [err|]] m1|msg];
      [done| |done].
    by erewrite loop_no_team. }
  assert (Hfail : ∀ m0, ∃ ids err evs,
     parseChannelsFromConfig api c m0 = Done (ids, Some err) (logged m0 evs)).
  { intros m0. rewrite Hrun.
    destruct (loop_total api pre []) as (ids & err & evs & ->).
    destruct err as [err|]; [eauto 6|].
    rewrite logged_logged. eauto 6. }
  split_and!; [done| |].
  - intros m0. destruct (Hfail m0) as (ids & err & evs & ->). eauto.
  - rewrite (OnConfigurationChange_published _ _ c) by done.
    destruct (IsValid c) as [err|]; [by eexists _, _|].
    destruct (GetUserByUsername api (Username c)) as [user|];
      [|by eexists _, _].
    match goal with |- context [parseChannelsFromConfig _ c ?m0] =>
      destruct (Hfail m0) as (ids & err & evs & ->) end.
    by eexists _, _.
Qed.

Lemma unresolvable_team_stops_resolution_witness :
  ∃ err m',
    OnConfigurationChange (sales_host (snapshot "Sales/General,Ghost/Town"))
      (initial "U0" ["C0"]) = Done (Some err) m'
    ∧ ChannelsID (plugin m') = ["C0"].
Proof.
  apply (unresolvable_team_stops_resolution
           (sales_host (snapshot "Sales/General,Ghost/Town"))
           (initial "U0" ["C0"]) (snapshot "Sales/General,Ghost/Town")
           ["Sales/General"] [] "Ghost/Town" "Ghost" "Town").
  - left. reflexivity.
  - reflexivity.
  - reflexivity.
  - reflexivity.
  - reflexivity.
Defined.

(** ** The change hook and the derived state *)

(** C4: when loading succeeds and the loaded snapshot is invalid, the hook
    returns the validation error with the invalid snapshot published: the
    next [getConfiguration] returns it, in a cell that did not exist
    before, and the derived state is untouched. *)
Theorem OnConfigurationChange_invalid_stays_published
    (api : API) (m : machine) (c : configuration) (err : string) :
  wf m →
  LoadPluginConfiguration api zero_configuration = inl c →
  IsValid c = Some err →
  ∃ m',
    OnConfigurationChange api m = Done (Some err) m'
    ∧ BotUserID (plugin m') = BotUserID (plugin m)
    ∧ ChannelsID (plugin m') = ChannelsID (plugin m)
    ∧ ∃ ptr,
        getConfiguration m' = Done ptr m'
        ∧ deref (heap m') ptr = Some c
        ∧ deref (heap m) ptr = None
        ∧ ptr ≠ Plugin_configuration (plugin m).
Proof.
  intros Hwf Hload Hinvalid.
  rewrite (OnConfigurationChange_published _ _ c) by done. rewrite Hinvalid.
  eexists. split; [reflexivity|]. split_and!; [done..|].
  exists (Some (fresh (dom (heap m)))). split_and!.
  - reflexivity.
  - apply lookup_insert_eq.
  - apply fresh_cell_free.
  - intros Heq. by eapply wf_fresh.
Qed.

Lemma OnConfigurationChange_invalid_stays_published_witness :
  ∃ m',
    OnConfigurationChange (sales_host (snapshot "Sales")) (published (snapshot "Sales/General"))
    = Done (Some "TeamsChannels must be in ofrm TeamName/ChannelName") m'
    ∧ BotUserID (plugin m') = ""
    ∧ ChannelsID (plugin m') = []
    ∧ ∃ ptr,
        getConfiguration m' = Done ptr m'
        ∧ deref (heap m') ptr = Some (snapshot "Sales")
        ∧ deref (heap (published (snapshot "Sales/General"))) ptr = None
        ∧ ptr ≠ Some 1%positive.
Proof.
  apply (OnConfigurationChange_invalid_stays_published
           (sales_host (snapshot "Sales")) (published (snapshot "Sales/General"))
           (snapshot "Sales")).
  - right. eexists. reflexivity.
  - reflexivity.
  - reflexivity.
Defined.

(** C3 (as the code has it): on a well-formed machine and a host that
    honours the contract the hook returns.  When it returns [nil], the published snapshot, [BotUserID] and
    [ChannelsID] are all three the newly loaded and resolved ones.  When it
    returns an error, [ChannelsID] is as it was.  [BotUserID] is as it was
    when loading fails, when the snapshot is invalid and when the user is
    unknown; once the snapshot is valid and the user is resolved,
    [BotUserID] holds the new user identifier, also when the resolution of
    the channels then fails and the hook returns its error.  The snapshot is
    published whenever loading succeeds. *)
Theorem OnConfigurationChange_derived_state (api : API) (m : machine) :
  wf m →
  ∃ err m',
    OnConfigurationChange api m = Done err m'
    ∧ (err = None →
       ∃ c user,
         LoadPluginConfiguration api zero_configuration = inl c
         ∧ deref (heap m') (Plugin_configuration (plugin m')) = Some c
         ∧ IsValid c = None
         ∧ GetUserByUsername api (Username c) = Some user
         ∧ BotUserID (plugin m') = User_Id user
         ∧ Forall2 (resolves api) (strings.Split (TeamsChannels c) ",")
                   (ChannelsID (plugin m')))
    ∧ (err ≠ None → ChannelsID (plugin m') = ChannelsID (plugin m))
    ∧ (∀ e, LoadPluginConfiguration api zero_configuration = inr e →
         BotUserID (plugin m') = BotUserID (plugin m)
         ∧ Plugin_configuration (plugin m') = Plugin_configuration (plugin m))
    ∧ (∀ c, LoadPluginConfiguration api zero_configuration = inl c →
         deref (heap m') (Plugin_configuration (plugin m')) = Some c)
    ∧ (∀ c, LoadPluginConfiguration api zero_configuration = inl c →
         IsValid c ≠ None ∨ GetUserByUsername api (Username c) = None →
         err ≠ None ∧ BotUserID (plugin m') = BotUserID (plugin m))
    ∧ (∀ c user,
         LoadPluginConfiguration api zero_configuration = inl c →
         IsValid c = None →
         GetUserByUsername api (Username c) = Some user →
         BotUserID (plugin m') = User_Id user
         ∧ ∀ m0, ∃ ids m1,
             parseChannelsFromConfig api c m0 = Done (ids, err) m1).
Proof.
  intros Hwf.
  destruct (LoadPluginConfiguration api zero_configuration) as [c|e] eqn:Hload.
  2:{ erewrite OnConfigurationChange_load_failed by done.
      eexists _, _. split; [reflexivity|]. by split_and!. }
  rewrite (OnConfigurationChange_published _ _ c) by done.
  assert (Hsame : ∀ c', inl (B:=string) c = inl c' → c' = c)
    by (intros c' Heq; by inversion Heq).
  destruct (IsValid c) as [err|] eqn:Hvalid.
  { eexists _, _. split; [reflexivity|]. split_and!; try done.
    - intros c' ->%Hsame. simpl. apply lookup_insert_eq.
    - intros c' user ->%Hsame. congruence. }
  destruct (GetUserByUsername api (Username c)) as [user|] eqn:Huser.
  2:{ eexists _, _. split; [reflexivity|]. split_and!; try done.
      - intros c' ->%Hsame. simpl. apply lookup_insert_eq.
      - intros c' user' ->%Hsame _ Hu. congruence. }
  unfold parseChannelsFromConfig.
  destruct (loop_total api (strings.Split (TeamsChannels c) ",") [])
    as (ids & err & evs & Hrun).
  rewrite Hrun.
  assert (Hresolved : ∀ c' user',
            inl (B:=string) c = inl c' →
            IsValid c' = None →
            GetUserByUsername api (Username c') = Some user' →
            User_Id user = User_Id user'
            ∧ ∀ m0, ∃ ids' m1,
                parseChannels_loop api (strings.Split (TeamsChannels c') ",") [] m0
                = Done (ids', err) m1).
  { intros c' user' ->%Hsame _ Hu. rewrite Huser in Hu. injection Hu as <-.
    split; [done|]. intros m0. rewrite Hrun. eauto. }
  assert (Hunresolved : ∀ c',
            inl (B:=string) c = inl c' →
            IsValid c' ≠ None ∨ GetUserByUsername api (Username c') = None →
            False).
  { intros c' ->%Hsame [Hv|Hu]; congruence. }
  destruct err as [err|].
  - eexists _, _. split; [reflexivity|]. simpl. split_and!; try done.
    + intros c' ->%Hsame. apply lookup_insert_eq.
    + intros c' Hc' Hno. by destruct (Hunresolved c' Hc' Hno).
  - eexists _, _. split; [reflexivity|]. simpl. split_and!; try done.
    + intros _. exists c, user. split_and!; try done.
      * apply lookup_insert_eq.
      * specialize (Hrun m).
        by apply loop_success in Hrun as (new & -> & Hall).
    + intros c' ->%Hsame. apply lookup_insert_eq.
    + intros c' Hc' Hno. by destruct (Hunresolved c' Hc' Hno).
Qed.

Lemma OnConfigurationChange_derived_state_witness :
  ∃ err m',
    OnConfigurationChange (sales_host (snapshot "Sales/General,Ghost/Town"))
      (initial "U0" ["C0"])
    = Done err m'
    ∧ BotUserID (plugin m') = "U1"
    ∧ (∀ m0, ∃ ids m1,
         parseChannelsFromConfig (sales_host (snapshot "Sales/General,Ghost/Town"))
           (snapshot "Sales/General,Ghost/Town") m0
         = Done (ids, err) m1).
Proof.
  destruct (OnConfigurationChange_derived_state
              (sales_host (snapshot "Sales/General,Ghost/Town"))
              (initial "U0" ["C0"]))
    as (err & m' & Hrun & _ & _ & _ & _ & _ & Hresolved).
  - left. reflexivity.
  - destruct (Hresolved (snapshot "Sales/General,Ghost/Town") (Build_User "U1"))
      as [Hbot Hparse]; [reflexivity..|].
    by exists err, m'.
Defined.

(** The full run of the hook on that host: everything is updated. *)
Example OnConfigurationChange_all_updated :
  ∃ m',
    OnConfigurationChange (sales_host (snapshot "Sales/General")) (initial "U0" ["C0"])
    = Done None m'
    ∧ BotUserID (plugin m') = "U1"
    ∧ ChannelsID (plugin m') = ["C1"]
    ∧ deref (heap m') (Plugin_configuration (plugin m'))
      = Some (snapshot "Sales/General").
Proof. eexists. split; [vm_compute; reflexivity|]. by split_and!. Qed.

(** C3, counterexample: the user resolves, the second team does not; the
    hook returns the error with [BotUserID] replaced and [ChannelsID]
    still the old list. *)
Lemma OnConfigurationChange_updates_bot_only :
  ∃ m',
    OnConfigurationChange (sales_host (snapshot "Sales/General,Ghost/Town"))
      (initial "U0" ["C0"])
    = Done (Some "Unable to find team with configured team: Ghost") m'
    ∧ BotUserID (plugin (initial "U0" ["C0"])) = "U0"
    ∧ BotUserID (plugin m') = "U1"
    ∧ ChannelsID (plugin (initial "U0" ["C0"])) = ["C0"]
    ∧ ChannelsID (plugin m') = ["C0"].
Proof. eexists. split; [vm_compute; reflexivity|]. by split_and!. Qed.

(** * Further properties *)


(** X1: [Split] cuts at every separator and nowhere else: joining the parts
    with the separator gives the string back, no part contains the
    separator, and there is one part more than there are separators. *)
Theorem Split_Join (s : string) (sep : ascii) :
  Join (strings.Split s sep) sep = s
  ∧ Forall (λ part, strings.Count part sep = 0) (strings.Split s sep)
  ∧ length (strings.Split s sep) = strings.Count s sep + 1.
Proof.
  split_and!.
  - apply Split_Join_parts.
  - apply Split_parts_free.
  - rewrite Split_length. lia.
Qed.

(** ** What the resolution loop does in general *)

Section resolution_more.
Variable api : API.

(** Every call the loop makes is a clean lookup, when no pair-string
    contains a comma. *)
Lemma loop_clean pairs : ∀ channelsID,
  Forall (λ ps, strings.Count ps "," = 0) pairs →
  ∃ ids err evs,
    (∀ m, parseChannels_loop api pairs channelsID m
          = Done (ids, err) (logged m evs))
    ∧ Forall clean_lookup evs.
Proof.
  induction pairs as [|ps rest IH]; intros channelsID Hpairs.
  - exists channelsID, None, []. split; [|done].
    intros m. simpl. unfold mret, M_ret. by rewrite logged_nil.
  - apply Forall_cons in Hpairs as [Hps Hrest].
    destruct (two_parts_dec ps) as [Hbad|(t & c & Hv)].
    { eexists _, _, []. split; [|done].
      intros m. rewrite logged_nil. by apply loop_bad_format. }
    assert (Hslash := Split_parts_free ps "/"). rewrite Hv in Hslash.
    apply Forall_cons in Hslash as [Ht_slash Hc_slash].
    apply Forall_cons in Hc_slash as [Hc_slash _].
    assert (Hcomma := Count_Split ps "," "/"). rewrite Hv in Hcomma.
    rewrite !fmap_cons in Hcomma. cbn [sum_list sum_list_with fmap list_fmap] in Hcomma.
    unfold id in Hcomma. specialize (Hcomma ltac:(done)).
    assert (clean_lookup (CallGetTeamByName t)) as Hteam.
    { exists t. split_and!; [done| lia |done|done]. }
    destruct (GetTeamByName api t) as [team|] eqn:Ht.
    2:{ eexists _, _, _. split; [intros m; by eapply loop_no_team|].
        by constructor. }
    assert (clean_lookup (CallGetChannelByName (Team_Id team) c false)) as Hchan.
    { exists c. split_and!; [done| lia |done|done]. }
    destruct (GetChannelByName api (Team_Id team) c false) as [channel|] eqn:Hc.
    2:{ eexists _, _, _. split; [intros m; by eapply loop_no_channel|].
        by repeat constructor. }
    destruct (IH (channelsID ++ [Channel_Id channel]) Hrest)
      as (ids & err & evs & Hrun & Hclean).
    eexists ids, err, _. split.
    + intros m. erewrite loop_resolved by done. rewrite Hrun.
      by rewrite logged_logged.
    + by repeat constructor.
Qed.

End resolution_more.

(** The loop on any host: it resolves the longest run of leading
    pair-strings that resolve; at the pair-string after it, it panics when
    the host leaves a lookup unanswered and returns an error otherwise. *)
Lemma host_loop_prefix (host : Host) pairs : ∀ channelsID,
  ∃ pre post new,
    pairs = pre ++ post
    ∧ Forall2 (host_resolves host) pre new
    ∧ match post with
      | [] =>
          ∀ m, parseChannels_loop host pairs channelsID m
               = Done (channelsID ++ new, None)
                      (logged m (concat (host_lookups host <$> pre)))
      | ps :: _ =>
          (∀ id, ¬ host_resolves host ps id)
          ∧ ((unanswered host ps
              ∧ ∀ m, parseChannels_loop host pairs channelsID m
                     = Panic nil_dereference)
             ∨ (¬ unanswered host ps
                ∧ ∃ msg, ∀ m,
                    parseChannels_loop host pairs channelsID m
                    = Done (channelsID ++ new, Some msg)
                           (logged m (concat (host_lookups host <$> pre)
                                      ++ host_lookups host ps))))
      end.
Proof.
  induction pairs as [|ps rest IH]; intros channelsID.
  - exists [], [], []. split_and!; try done.
    intros m. simpl. unfold mret, M_ret. by rewrite logged_nil, app_nil_r.
  - destruct (two_parts_dec ps) as [Hbad|(t & c & Hv)].
    { exists [], (ps :: rest), []. split_and!; try done.
      - intros id (t & c & team & channel & Hv & _).
        rewrite Hv in Hbad. by simpl in Hbad.
      - right. split.
        + intros (t & c & Hv & _). rewrite Hv in Hbad. by simpl in Hbad.
        + eexists. intros m. rewrite host_loop_bad_format by done.
          rewrite app_nil_r. simpl. unfold host_lookups.
          destruct (strings.Split ps "/") as [|? [|? [|? ?]]];
            simpl in *; try done; by rewrite logged_nil. }
    destruct (host_GetTeamByName host t) as [team [e|]] eqn:Ht.
    { exists [], (ps :: rest), []. split_and!; try done.
      - intros id (t' & c' & team' & channel & Hv' & Ht' & _). congruence.
      - right. split.
        + intros (t' & c' & Hv' & [Ht'|(team' & Ht' & _)]); congruence.
        + eexists. intros m. erewrite host_loop_team_error by done.
          rewrite app_nil_r. simpl. unfold host_lookups. rewrite Hv, Ht.
          by destruct team. }
    destruct team as [team|].
    2:{ exists [], (ps :: rest), []. split_and!; try done.
        - intros id (t' & c' & team' & channel & Hv' & Ht' & _). congruence.
        - left. split; [exists t, c; by split; [|left]|].
          intros m. by erewrite host_loop_team_nil. }
    destruct (host_GetChannelByName host (Team_Id team) c false)
      as [channel [e|]] eqn:Hc.
    { exists [], (ps :: rest), []. split_and!; try done.
      - intros id (t' & c' & team' & channel' & Hv' & Ht' & Hc' & _). congruence.
      - right. split.
        + intros (t' & c' & Hv' & [Ht'|(team' & Ht' & Hc')]); congruence.
        + eexists. intros m. erewrite host_loop_channel_error by done.
          rewrite app_nil_r. simpl. unfold host_lookups. by rewrite Hv, Ht. }
    destruct channel as [channel|].
    2:{ exists [], (ps :: rest), []. split_and!; try done.
        - intros id (t' & c' & team' & channel' & Hv' & Ht' & Hc' & _). congruence.
        - left. split.
          + exists t, c. split; [done|]. right. by exists team.
          + intros m. by erewrite host_loop_channel_nil. }
    assert (host_lookups host ps
            = [CallGetTeamByName t; CallGetChannelByName (Team_Id team) c false])
      as Hcalls by (unfold host_lookups; by rewrite Hv, Ht).
    destruct (IH (channelsID ++ [Channel_Id channel]))
      as (pre & post & new & -> & Hall & Hpost).
    exists (ps :: pre), post, (Channel_Id channel :: new).
    split_and!; [done| |].
    + constructor; [|done]. by exists t, c, team, channel.
    + rewrite fmap_cons, concat_cons, Hcalls.
      destruct post as [|ps' post'].
      * intros m. erewrite host_loop_resolved by done. rewrite Hpost.
        unfold logged. simpl. by rewrite <- !app_assoc.
      * destruct Hpost as [Hno [[Hun Hpanic]|[Hans [msg Hrun]]]];
          (split; [done|]).
        -- left. split; [done|]. intros m.
           erewrite host_loop_resolved by done. apply Hpanic.
        -- right. split; [done|]. exists msg. intros m.
           erewrite host_loop_resolved by done. rewrite Hrun.
           unfold logged. simpl. by rewrite <- !app_assoc.
Qed.

(** X2: [parseChannelsFromConfig] touches nothing but the log of host
    calls.  It resolves the longest run of leading pair-strings that
    resolve.  When that run is the whole list it returns their identifiers,
    in order, and [nil].  Otherwise it stops at the pair-string after the
    run: if the host leaves a lookup for it unanswered (nil value, nil
    error) the call panics on the nil pointer, else it returns the
    identifiers of the run next to an error.  For each pair-string it
    makes at most the team lookup followed by the channel lookup.  On a
    host that never leaves a lookup unanswered it always returns. *)
Theorem parseChannels_longest_prefix (host : Host) (c : configuration) :
  (∃ pre post ids,
     strings.Split (TeamsChannels c) "," = pre ++ post
     ∧ Forall2 (host_resolves host) pre ids
     ∧ match post with
       | [] =>
           ∀ m, parseChannelsFromConfig host c m
                = Done (ids, None)
                       (logged m (concat (host_lookups host <$> pre)))
       | ps :: _ =>
           (∀ id, ¬ host_resolves host ps id)
           ∧ ((unanswered host ps
               ∧ ∀ m, parseChannelsFromConfig host c m = Panic nil_dereference)
              ∨ (¬ unanswered host ps
                 ∧ ∃ msg, ∀ m,
                     parseChannelsFromConfig host c m
                     = Done (ids, Some msg)
                            (logged m (concat (host_lookups host <$> pre)
                                       ++ host_lookups host ps))))
       end)
  ∧ (∀ ps, ∃ t ch teamId,
       host_lookups host ps = []
       ∨ host_lookups host ps = [CallGetTeamByName t]
       ∨ host_lookups host ps
         = [CallGetTeamByName t; CallGetChannelByName teamId ch false])
  ∧ (honours host →
     ∃ ids err evs, ∀ m,
       parseChannelsFromConfig host c m = Done (ids, err) (logged m evs)).
Proof.
  destruct (host_loop_prefix host (strings.Split (TeamsChannels c) ",") [])
    as (pre & post & ids & Hsplit & Hall & Hpost).
  split_and!.
  - by exists pre, post, ids.
  - intros ps. unfold host_lookups.
    destruct (strings.Split ps "/") as [|t [|ch [|? ?]]];
      try (by exists "", "", ""; left).
    destruct (host_GetTeamByName host t) as [[team|] [e|]];
      try (by exists t, ch, ""; right; left).
    exists t, ch, (Team_Id team). by right; right.
  - intros (Huser & Hteam & Hchannel). unfold parseChannelsFromConfig.
    destruct post as [|ps post']; [by eexists _, _, _|].
    destruct Hpost as [_ [[Hun _]|[_ [msg Hrun]]]]; [|by eexists _, _, _].
    exfalso. destruct Hun as (t & ch & _ & [Ht|(team & _ & Hc)]).
    + by apply (Hteam t).
    + by apply (Hchannel (Team_Id team) ch false).
Qed.

(** X3: the names [parseChannelsFromConfig] asks the host for contain
    neither [','] nor ['/'], every call it makes is a team or a channel
    lookup, and channel lookups never include deleted channels. *)
Theorem parseChannels_clean_lookups (api : API) (c : configuration) (m : machine) :
  ∃ ids err evs,
    parseChannelsFromConfig api c m = Done (ids, err) (logged m evs)
    ∧ Forall clean_lookup evs.
Proof.
  destruct (loop_clean api (strings.Split (TeamsChannels c) ",") [])
    as (ids & err & evs & Hrun & Hclean).
  - apply Split_parts_free.
  - exists ids, err, evs. split; [apply Hrun | done].
Qed.

Lemma IsValid_accepts (c : configuration) :
  Username c ≠ "" → TeamsChannels c ≠ "" → ¬ malformed c →
  BotUsername c ≠ "" → BotIconURL c ≠ "" →
  IsValid c = None.
Proof.
  intros Hu Ht Hf Hb Hi. unfold IsValid, errors.New.
  split_checks; done.
Qed.

(** The format test, read back from an accepted snapshot. *)
Lemma IsValid_format (c : configuration) :
  IsValid c = None →
  strings.Count (TeamsChannels c) "," + 1 = strings.Count (TeamsChannels c) "/".
Proof.
  unfold IsValid, errors.New. intros H.
  destruct (isEmpty (Username c)); [done|].
  destruct (isEmpty (TeamsChannels c)); [done|].
  destruct (Nat.eqb _ _) eqn:E; [|done]. by apply Nat.eqb_eq in E.
Qed.

(** X4: a [TeamsChannels] that [parseChannelsFromConfig] gets through, on
    whatever host, passes the format test of [IsValid]: it is not empty
    and has one comma less than slashes, so that [IsValid] accepts the
    snapshot as soon as the three other fields are set.  The result has one
    identifier per pair-string. *)
Theorem parsed_passes_format_test
    (api : API) (c : configuration) (m m' : machine) (ids : list string) :
  parseChannelsFromConfig api c m = Done (ids, None) m' →
  TeamsChannels c ≠ ""
  ∧ ¬ malformed c
  ∧ length ids = strings.Count (TeamsChannels c) "," + 1
  ∧ (Username c ≠ "" → BotUsername c ≠ "" → BotIconURL c ≠ "" →
     IsValid c = None).
Proof.
  intros Hrun. unfold parseChannelsFromConfig in Hrun.
  apply loop_success in Hrun as (new & -> & Hall). simpl.
  assert (Hone : Forall (λ ps, strings.Count ps "/" = 1)
                        (strings.Split (TeamsChannels c) ",")).
  { eapply Forall2_Forall_l; [exact Hall|]. apply Forall_true.
    intros id ps (t & ch & _ & _ & Hv & _).
    pose proof (Split_length ps "/") as Hlen. rewrite Hv in Hlen.
    simpl in Hlen. lia. }
  assert (Hsum : sum_list ((λ ps, strings.Count ps "/")
                             <$> strings.Split (TeamsChannels c) ",")
                 = length (strings.Split (TeamsChannels c) ",")).
  { clear Hall. induction Hone as [|ps l Hps _ IH]; [done|].
    rewrite fmap_cons. cbn [sum_list sum_list_with length]. unfold id.
    rewrite Hps. f_equal. exact IH. }
  rewrite Count_Split, Split_length in Hsum by done.
  assert (Hformat : ¬ malformed c) by (unfold malformed; lia).
  assert (Hnonempty : TeamsChannels c ≠ "").
  { intros Hempty. rewrite Hempty in Hsum. simpl in Hsum. lia. }
  split_and!; [done|done| |].
  - apply Forall2_length in Hall. rewrite Split_length in Hall. lia.
  - intros Hu Hb Hi. by apply IsValid_accepts.
Qed.

Lemma parsed_passes_format_test_witness :
  TeamsChannels (snapshot "Sales/General") ≠ ""
  ∧ ¬ malformed (snapshot "Sales/General")
  ∧ length ["C1"] = strings.Count (TeamsChannels (snapshot "Sales/General")) "," + 1
  ∧ (Username (snapshot "Sales/General") ≠ "" →
     BotUsername (snapshot "Sales/General") ≠ "" →
     BotIconURL (snapshot "Sales/General") ≠ "" →
     IsValid (snapshot "Sales/General") = None).
Proof.
  apply (parsed_passes_format_test (sales_host (snapshot "Sales/General"))
           (snapshot "Sales/General") (initial "" [])
           (logged (initial "" [])
              [CallGetTeamByName "Sales";
               CallGetChannelByName "T1" "General" false])
           ["C1"]).
  reflexivity.
Defined.

(** X5: a [TeamsChannels] without any ['/'] (the empty string included)
    makes [parseChannelsFromConfig] fail on its first pair-string with the
    format error, on every host, before any lookup and with an empty
    result. *)
Theorem parseChannels_without_slash
    (api : API) (c : configuration) (m : machine) :
  strings.Count (TeamsChannels c) "/" = 0 →
  ∃ first rest,
    strings.Split (TeamsChannels c) "," = first :: rest
    ∧ parseChannelsFromConfig api c m
      = Done ([], Some ("Bad formatted TeamsChannels: " +:+ first)) m.
Proof.
  intros Hzero. unfold parseChannelsFromConfig.
  pose proof (Count_Split (TeamsChannels c) "/" ",") as Hsum.
  destruct (strings.Split (TeamsChannels c) ",") as [|first rest] eqn:E;
    [by apply Split_nonempty in E|].
  exists first, rest. split; [done|].
  apply loop_bad_format. rewrite Split_length.
  rewrite fmap_cons in Hsum. cbn [sum_list sum_list_with] in Hsum.
  unfold id in Hsum. specialize (Hsum ltac:(done)). lia.
Qed.

Lemma parseChannels_without_slash_witness :
  ∃ first rest,
    strings.Split (TeamsChannels (snapshot "")) "," = first :: rest
    ∧ parseChannelsFromConfig (permissive_host (snapshot "")) (snapshot "")
        (initial "" [])
      = Done ([], Some ("Bad formatted TeamsChannels: " +:+ first)) (initial "" []).
Proof.
  apply (parseChannels_without_slash (permissive_host (snapshot ""))
           (snapshot "") (initial "" [])).
  reflexivity.
Defined.

(** X6: for a snapshot that [IsValid] accepts and whose [TeamsChannels]
    has no comma, the format cannot be at fault: [TeamsChannels] is
    [team/channel] for a team and a channel name without ['/'], and the
    outcome of [parseChannelsFromConfig] is decided by the two lookups of
    the host alone. *)
Theorem valid_single_pair_parses (c : configuration) :
  IsValid c = None →
  strings.Count (TeamsChannels c) "," = 0 →
  ∃ t ch,
    TeamsChannels c = t +:+ "/" +:+ ch
    ∧ strings.Count t "/" = 0
    ∧ strings.Count ch "/" = 0
    ∧ ∀ (api : API) m,
        parseChannelsFromConfig api c m
        = match GetTeamByName api t with
          | None =>
              Done ([], Some ("Unable to find team with configured team: " +:+ t))
                   (logged m [CallGetTeamByName t])
          | Some team =>
              match GetChannelByName api (Team_Id team) ch false with
              | None =>
                  Done ([], Some ("Unable to find channel with configured channel: "
                                  +:+ ch))
                       (logged m [CallGetTeamByName t;
                                  CallGetChannelByName (Team_Id team) ch false])
              | Some channel =>
                  Done ([Channel_Id channel], None)
                       (logged m [CallGetTeamByName t;
                                  CallGetChannelByName (Team_Id team) ch false])
              end
          end.
Proof.
  intros Hvalid Hcomma. apply IsValid_format in Hvalid.
  pose proof (Split_length (TeamsChannels c) "/") as Hlen.
  destruct (strings.Split (TeamsChannels c) "/") as [|t [|ch [|x v]]] eqn:Hv;
    simpl in Hlen; try lia.
  exists t, ch.
  pose proof (Split_Join_parts (TeamsChannels c) "/") as [Hjoin Hfree].
  rewrite Hv in Hjoin, Hfree.
  apply Forall_cons in Hfree as [Ht Hfree].
  apply Forall_cons in Hfree as [Hch _].
  split_and!; [by rewrite <- Hjoin|done|done|].
  intros api m. unfold parseChannelsFromConfig.
  rewrite (Count_zero_Split _ _ Hcomma).
  destruct (GetTeamByName api t) as [team|] eqn:Hteam.
  2:{ by erewrite loop_no_team. }
  destruct (GetChannelByName api (Team_Id team) ch false) as [channel|] eqn:Hchan.
  2:{ by erewrite loop_no_channel. }
  erewrite loop_resolved by done. reflexivity.
Qed.

Lemma valid_single_pair_parses_witness :
  ∃ t ch,
    TeamsChannels (snapshot "Sales/General") = t +:+ "/" +:+ ch
    ∧ strings.Count t "/" = 0
    ∧ strings.Count ch "/" = 0.
Proof.
  destruct (valid_single_pair_parses (snapshot "Sales/General"))
    as (t & ch & Heq & Ht & Hch & _).
  - reflexivity.
  - reflexivity.
  - by exists t, ch.
Defined.

(** ** Pointers: cloning and publishing *)

(** X7: [Clone] of a pointer to a snapshot returns the address of a new
    cell, one that was not in use (so it differs from the argument and from
    every pointer held so far), holding the same four fields; nothing else
    changes. *)
Theorem Clone_fresh_copy (m : machine) (l : positive) (c : configuration) :
  heap m !! l = Some c →
  ∃ l' m',
    Clone (Some l) m = Done (Some l') m'
    ∧ heap m !! l' = None
    ∧ l' ≠ l
    ∧ heap m' !! l' = Some c
    ∧ heap m' !! l = Some c
    ∧ heap m ⊆ heap m'
    ∧ plugin m' = plugin m
    ∧ calls m' = calls m.
Proof.
  intros Hl. exists (fresh (dom (heap m))). eexists.
  unfold Clone, load, alloc, mbind, M_bind. simpl. rewrite Hl.
  split; [reflexivity|]. simpl.
  pose proof (fresh_cell_free (heap m)) as Hfresh.
  assert (fresh (dom (heap m)) ≠ l) as Hne
    by (intros Heq; rewrite Heq in Hfresh; congruence).
  split_and!; try done.
  - apply lookup_insert_eq.
  - by rewrite lookup_insert_ne.
  - by apply insert_subseteq.
Qed.

Lemma Clone_fresh_copy_witness :
  ∃ l' m',
    Clone (Some 1%positive) (published (snapshot "Sales/General")) = Done (Some l') m'
    ∧ heap (published (snapshot "Sales/General")) !! l' = None
    ∧ l' ≠ 1%positive
    ∧ heap m' !! l' = Some (snapshot "Sales/General")
    ∧ heap m' !! 1%positive = Some (snapshot "Sales/General")
    ∧ heap (published (snapshot "Sales/General")) ⊆ heap m'
    ∧ plugin m' = plugin (published (snapshot "Sales/General"))
    ∧ calls m' = calls (published (snapshot "Sales/General")).
Proof.
  apply (Clone_fresh_copy (published (snapshot "Sales/General")) 1%positive
           (snapshot "Sales/General")).
  reflexivity.
Defined.

(** X8: reading the configuration, cloning it and publishing the clone
    never panics: the clone becomes the stored pointer, it is a new cell
    holding what was visible before (the zero value when nothing was
    published), the cells in use are untouched and so is the derived
    state. *)
Theorem clone_then_publish (m : machine) :
  wf m →
  ∃ l' m',
    (ptr ← getConfiguration; clone ← Clone ptr; setConfiguration clone;; mret clone) m
    = Done (Some l') m'
    ∧ heap m !! l' = None
    ∧ Plugin_configuration (plugin m') = Some l'
    ∧ heap m' !! l'
      = Some (default zero_configuration
                (deref (heap m) (Plugin_configuration (plugin m))))
    ∧ getConfiguration m' = Done (Some l') m'
    ∧ heap m ⊆ heap m'
    ∧ BotUserID (plugin m') = BotUserID (plugin m)
    ∧ ChannelsID (plugin m') = ChannelsID (plugin m).
Proof.
  intros Hwf. pose proof (fresh_cell_free (heap m)) as Hfresh.
  unfold Clone, getConfiguration, setConfiguration, getPlugin, putPlugin,
    load, alloc, mbind, M_bind, mret, M_ret. simpl.
  destruct (Plugin_configuration (plugin m)) as [l|] eqn:Hp.
  - destruct Hwf as [Hnil|[c Hc]]; [congruence|]. rewrite Hp in Hc.
    simpl in *. rewrite Hc. simpl. rewrite Hp.
    rewrite (bool_decide_eq_false_2 (Some l = _)) by congruence. simpl.
    eexists _, _. split; [reflexivity|]. simpl.
    split_and!; try done.
    + apply lookup_insert_eq.
    + by apply insert_subseteq.
  - simpl. rewrite lookup_insert_eq. simpl. rewrite Hp. simpl.
    set (l1 := fresh (dom (heap m))) in *.
    pose proof (fresh_cell_free (<[l1 := zero_configuration]> (heap m))) as Hfresh2.
    eexists _, _. split; [reflexivity|]. simpl.
    assert (fresh (dom (<[l1 := zero_configuration]> (heap m))) ≠ l1) as Hne.
    { intros Heq. rewrite Heq, lookup_insert_eq in Hfresh2. done. }
    split_and!; try done.
    + rewrite lookup_insert_ne in Hfresh2; [done|]. by apply not_eq_sym.
    + apply lookup_insert_eq.
    + etrans; [by apply insert_subseteq|]. by apply insert_subseteq.
Qed.

Lemma clone_then_publish_witness :
  ∃ l' m',
    (ptr ← getConfiguration; clone ← Clone ptr; setConfiguration clone;; mret clone)
      (published (snapshot "Sales/General"))
    = Done (Some l') m'
    ∧ heap (published (snapshot "Sales/General")) !! l' = None
    ∧ Plugin_configuration (plugin m') = Some l'.
Proof.
  destruct (clone_then_publish (published (snapshot "Sales/General")))
    as (l' & m' & Hrun & Hfresh & Hp & _).
  - right. eexists. reflexivity.
  - by exists l', m'.
Defined.

(** X9: publishing back the pointer [getConfiguration] returned, without
    cloning, panics as soon as a snapshot has been published; before that
    (stored pointer nil) it publishes a zero-valued snapshot. *)
Theorem publish_without_clone (m : machine) :
  wf m →
  match Plugin_configuration (plugin m) with
  | Some _ =>
      (ptr ← getConfiguration; setConfiguration ptr) m
      = Panic "setConfiguration called with the existing configuration"
  | None =>
      ∃ l m',
        (ptr ← getConfiguration; setConfiguration ptr) m = Done tt m'
        ∧ Plugin_configuration (plugin m') = Some l
        ∧ heap m' !! l = Some zero_configuration
  end.
Proof.
  intros Hwf.
  unfold getConfiguration, setConfiguration, getPlugin, putPlugin,
    load, alloc, panic, mbind, M_bind, mret, M_ret. simpl.
  destruct (Plugin_configuration (plugin m)) as [l|] eqn:Hp.
  - destruct Hwf as [Hnil|[c Hc]]; [congruence|]. rewrite Hp in Hc.
    simpl in *. rewrite Hp. rewrite bool_decide_eq_true_2 by done.
    by rewrite Hc.
  - simpl. rewrite Hp. simpl. eexists _, _. split; [reflexivity|].
    simpl. split; [done|]. apply lookup_insert_eq.
Qed.

Lemma publish_without_clone_witness :
  (ptr ← getConfiguration; setConfiguration ptr) (published (snapshot "Sales/General"))
  = Panic "setConfiguration called with the existing configuration".
Proof.
  apply (publish_without_clone (published (snapshot "Sales/General"))).
  right. eexists. reflexivity.
Defined.

(** X10: publishing a pointer other than the stored one never panics and
    never reads the heap: the pointer is stored, heap, log and derived
    state are as before, and [getConfiguration] returns that very
    pointer. *)
Theorem setConfiguration_then_get (m : machine) (l : positive) :
  Plugin_configuration (plugin m) ≠ Some l →
  ∃ m',
    setConfiguration (Some l) m = Done tt m'
    ∧ Plugin_configuration (plugin m') = Some l
    ∧ BotUserID (plugin m') = BotUserID (plugin m)
    ∧ ChannelsID (plugin m') = ChannelsID (plugin m)
    ∧ heap m' = heap m
    ∧ calls m' = calls m
    ∧ getConfiguration m' = Done (Some l) m'.
Proof.
  intros Hne. unfold_M.
  rewrite (bool_decide_eq_false_2 (Plugin_configuration (plugin m) = _)) by done.
  simpl. eexists. split; [reflexivity|]. by split_and!.
Qed.

Lemma setConfiguration_then_get_witness :
  ∃ m',
    setConfiguration (Some 2%positive) (published (snapshot "Sales/General"))
    = Done tt m'
    ∧ Plugin_configuration (plugin m') = Some 2%positive.
Proof.
  destruct (setConfiguration_then_get (published (snapshot "Sales/General"))
              2%positive) as (m' & Hrun & Hp & _).
  - discriminate.
  - by exists m'.
Defined.

(** ** The change hook, path by path *)

Section hook_paths.
Variable api : API.

(** Once the snapshot [c] is loaded, the hook leaves the heap of
    [republished m c] and the new pointer; what it returns, the derived
    state and the lookups after the load depend on the validation, the
    user lookup and the resolution, in this order. *)
Lemma OnConfigurationChange_shape (m : machine) (c : configuration) :
  wf m →
  LoadPluginConfiguration api zero_configuration = inl c →
  ∃ err b ids evs,
    OnConfigurationChange api m
    = Done err (Build_machine (heap (republished m c))
                  (Build_Plugin (Some (fresh (dom (heap m)))) b ids)
                  (calls m ++ CallLoadPluginConfiguration :: evs))
    ∧ (∀ e, IsValid c = Some e →
         err = Some e ∧ b = BotUserID (plugin m) ∧ ids = ChannelsID (plugin m)
         ∧ evs = [])
    ∧ (IsValid c = None → GetUserByUsername api (Username c) = None →
         err = Some ("Unable to find user with configured username: "
                     +:+ Username c)
         ∧ b = BotUserID (plugin m) ∧ ids = ChannelsID (plugin m)
         ∧ evs = [CallGetUserByUsername (Username c)])
    ∧ (∀ user, IsValid c = None →
         GetUserByUsername api (Username c) = Some user →
         ∃ pids pevs,
           (∀ m0, parseChannelsFromConfig api c m0
                  = Done (pids, err) (logged m0 pevs))
           ∧ b = User_Id user
           ∧ ids = match err with
                   | None => pids
                   | Some _ => ChannelsID (plugin m)
                   end
           ∧ evs = CallGetUserByUsername (Username c) :: pevs).
Proof.
  intros Hwf Hload.
  rewrite (OnConfigurationChange_published api m c) by done.
  destruct (IsValid c) as [e|] eqn:Hvalid.
  { exists (Some e), (BotUserID (plugin m)), (ChannelsID (plugin m)), [].
    split_and!; [done| |done|done]. intros e' [= <-]. done. }
  destruct (GetUserByUsername api (Username c)) as [user|] eqn:Huser.
  2:{ eexists _, (BotUserID (plugin m)), (ChannelsID (plugin m)),
        [CallGetUserByUsername (Username c)].
      split_and!; [|done|done|done].
      unfold logged, republished. simpl. by rewrite <- app_assoc. }
  unfold parseChannelsFromConfig.
  destruct (loop_total api (strings.Split (TeamsChannels c) ",") [])
    as (pids & perr & pevs & Hrun).
  rewrite Hrun.
  exists perr, (User_Id user),
    (match perr with None => pids | Some _ => ChannelsID (plugin m) end),
    (CallGetUserByUsername (Username c) :: pevs).
  split_and!; [|done|done|].
  - unfold logged, derived, republished. simpl.
    destruct perr; simpl; by rewrite <- !app_assoc.
  - intros user' _ [= <-]. by exists pids, pevs.
Qed.

End hook_paths.

(** X11: when the host cannot load the configuration, the hook returns
    the wrapped error after that one call; the stored pointer, the derived
    state and every cell in use stay as they were, and the snapshot readers
    see is the one they saw before. *)
Theorem OnConfigurationChange_load_error (api : API) (m : machine) (e : string) :
  LoadPluginConfiguration api zero_configuration = inr e →
  ∃ m',
    OnConfigurationChange api m
    = Done (Some ("failed to load plugin configuration: " +:+ e)) m'
    ∧ plugin m' = plugin m
    ∧ calls m' = calls m ++ [CallLoadPluginConfiguration]
    ∧ heap m ⊆ heap m'
    ∧ (wf m →
       deref (heap m') (Plugin_configuration (plugin m'))
       = deref (heap m) (Plugin_configuration (plugin m))).
Proof.
  intros Hload. rewrite (OnConfigurationChange_load_failed api m e) by done.
  eexists. split; [reflexivity|]. simpl.
  pose proof (fresh_cell_free (heap m)) as Hfresh.
  split_and!; try done.
  - by apply insert_subseteq.
  - intros [Hnil|[c Hc]]; [by rewrite Hnil|].
    destruct (Plugin_configuration (plugin m)) as [l|]; [|done]. simpl in *.
    rewrite lookup_insert_ne; [done|]. intros Heq. rewrite Heq in Hfresh.
    congruence.
Qed.

Lemma OnConfigurationChange_load_error_witness :
  ∃ m',
    OnConfigurationChange
      (Build_API (λ _, inr "EOF") (λ _, None) (λ _, None) (λ _ _ _, None))
      (published (snapshot "Sales/General"))
    = Done (Some ("failed to load plugin configuration: " +:+ "EOF")) m'
    ∧ plugin m' = plugin (published (snapshot "Sales/General")).
Proof.
  destruct (OnConfigurationChange_load_error
              (Build_API (λ _, inr "EOF") (λ _, None) (λ _, None) (λ _ _ _, None))
              (published (snapshot "Sales/General")) "EOF")
    as (m' & Hrun & Hp & _).
  - reflexivity.
  - by exists m'.
Defined.

(** X12: when the snapshot is valid and the host does not know the
    configured user, the hook returns the error naming the username; the
    snapshot is published, the derived state is as before, and no team or
    channel has been looked up. *)
Theorem OnConfigurationChange_unknown_user
    (api : API) (m : machine) (c : configuration) :
  wf m →
  LoadPluginConfiguration api zero_configuration = inl c →
  IsValid c = None →
  GetUserByUsername api (Username c) = None →
  ∃ m',
    OnConfigurationChange api m
    = Done (Some ("Unable to find user with configured username: "
                  +:+ Username c)) m'
    ∧ deref (heap m') (Plugin_configuration (plugin m')) = Some c
    ∧ BotUserID (plugin m') = BotUserID (plugin m)
    ∧ ChannelsID (plugin m') = ChannelsID (plugin m)
    ∧ calls m' = calls m ++ [CallLoadPluginConfiguration;
                             CallGetUserByUsername (Username c)].
Proof.
  intros Hwf Hload Hvalid Huser.
  destruct (OnConfigurationChange_shape api m c Hwf Hload)
    as (err & b & ids & evs & Hrun & _ & Hnouser & _).
  destruct (Hnouser Hvalid Huser) as (-> & -> & -> & ->).
  rewrite Hrun. eexists. split; [reflexivity|]. simpl.
  split_and!; try done. apply lookup_insert_eq.
Qed.

Lemma OnConfigurationChange_unknown_user_witness :
  ∃ m',
    OnConfigurationChange
      (sales_host (Build_configuration "nobody" "Sales/General" "bot" "http://icon"))
      (initial "U0" ["C0"])
    = Done (Some ("Unable to find user with configured username: " +:+ "nobody")) m'
    ∧ deref (heap m') (Plugin_configuration (plugin m'))
      = Some (Build_configuration "nobody" "Sales/General" "bot" "http://icon")
    ∧ BotUserID (plugin m') = "U0"
    ∧ ChannelsID (plugin m') = ["C0"].
Proof.
  destruct (OnConfigurationChange_unknown_user
              (sales_host (Build_configuration "nobody" "Sales/General" "bot" "http://icon"))
              (initial "U0" ["C0"])
              (Build_configuration "nobody" "Sales/General" "bot" "http://icon"))
    as (m' & Hrun & Hc & Hb & Hids & _).
  - left. reflexivity.
  - reflexivity.
  - reflexivity.
  - reflexivity.
  - by exists m'.
Defined.

(** X13: the order of the host calls of the hook.  The configuration is
    loaded once, first; an invalid snapshot stops the hook before any
    lookup; a valid one has its user looked up next, and only when the user
    is known do team and channel lookups follow, all of them for names
    without [','] or ['/']. *)
Theorem OnConfigurationChange_call_order
    (api : API) (m : machine) (c : configuration) :
  wf m →
  LoadPluginConfiguration api zero_configuration = inl c →
  ∃ err m' evs,
    OnConfigurationChange api m = Done err m'
    ∧ calls m' = calls m ++ CallLoadPluginConfiguration :: evs
    ∧ (IsValid c ≠ None → evs = [])
    ∧ (IsValid c = None →
       ∃ lookups_made,
         evs = CallGetUserByUsername (Username c) :: lookups_made
         ∧ Forall clean_lookup lookups_made
         ∧ (GetUserByUsername api (Username c) = None → lookups_made = [])).
Proof.
  intros Hwf Hload.
  destruct (OnConfigurationChange_shape api m c Hwf Hload)
    as (err & b & ids & evs & Hrun & Hinvalid & Hnouser & Huser).
  eexists err, _, evs. split; [exact Hrun|]. simpl. split_and!; [done| |].
  - intros Hne. destruct (IsValid c) as [e|]; [|done].
    by destruct (Hinvalid e eq_refl) as (_ & _ & _ & ->).
  - intros Hvalid.
    destruct (GetUserByUsername api (Username c)) as [user|] eqn:Hu.
    + destruct (Huser user Hvalid eq_refl) as (pids & pevs & Hparse & _ & _ & ->).
      exists pevs. split_and!; [done| |done].
      destruct (loop_clean api (strings.Split (TeamsChannels c) ",") []
                  (Split_parts_free _ _))
        as (ids' & err' & evs' & Hrun' & Hclean).
      specialize (Hrun' m). specialize (Hparse m).
      unfold parseChannelsFromConfig in Hparse.
      rewrite Hparse in Hrun'. injection Hrun' as _ _ Hcalls.
      by apply app_inv_head in Hcalls as ->.
    + destruct (Hnouser Hvalid eq_refl) as (_ & _ & _ & ->). by exists [].
Qed.

Lemma OnConfigurationChange_call_order_witness :
  ∃ err m' evs,
    OnConfigurationChange (sales_host (snapshot "Sales")) (initial "U0" ["C0"])
    = Done err m'
    ∧ calls m' = calls (initial "U0" ["C0"]) ++ CallLoadPluginConfiguration :: evs
    ∧ (IsValid (snapshot "Sales") ≠ None → evs = []).
Proof.
  destruct (OnConfigurationChange_call_order (sales_host (snapshot "Sales"))
              (initial "U0" ["C0"]) (snapshot "Sales"))
    as (err & m' & evs & Hrun & Hcalls & Hinvalid & _).
  - left. reflexivity.
  - reflexivity.
  - by exists err, m', evs.
Defined.

(** X14: when the host loads a valid snapshot, knows its user and resolves
    every pair-string, the hook returns [nil]: the snapshot is published,
    [BotUserID] is the identifier of the user, [ChannelsID] the identifiers
    of the channels in the order of the pair-strings, and the log has the
    load, the user lookup and the two lookups of each pair-string. *)
Theorem OnConfigurationChange_succeeds
    (api : API) (m : machine) (c : configuration) (user : User)
    (ids : list string) :
  wf m →
  LoadPluginConfiguration api zero_configuration = inl c →
  IsValid c = None →
  GetUserByUsername api (Username c) = Some user →
  Forall2 (resolves api) (strings.Split (TeamsChannels c) ",") ids →
  ∃ m',
    OnConfigurationChange api m = Done None m'
    ∧ deref (heap m') (Plugin_configuration (plugin m')) = Some c
    ∧ deref (heap m) (Plugin_configuration (plugin m')) = None
    ∧ BotUserID (plugin m') = User_Id user
    ∧ ChannelsID (plugin m') = ids
    ∧ calls m'
      = calls m ++ CallLoadPluginConfiguration
                :: CallGetUserByUsername (Username c)
                :: concat (lookups api <$> strings.Split (TeamsChannels c) ",").
Proof.
  intros Hwf Hload Hvalid Huser Hall.
  destruct (OnConfigurationChange_shape api m c Hwf Hload)
    as (err & b & ids' & evs & Hrun & _ & _ & Hfound).
  destruct (Hfound user Hvalid Huser) as (pids & pevs & Hparse & -> & -> & ->).
  specialize (Hparse m). unfold parseChannelsFromConfig in Hparse.
  rewrite (loop_all_resolved api _ ids) in Hparse by done.
  injection Hparse as <- <- Hcalls. apply app_inv_head in Hcalls as <-.
  rewrite Hrun. eexists. split; [reflexivity|]. simpl.
  split_and!; try done.
  - apply lookup_insert_eq.
  - apply fresh_cell_free.
Qed.

Lemma OnConfigurationChange_succeeds_witness :
  ∃ m',
    OnConfigurationChange (sales_host (snapshot "Sales/General")) (initial "U0" ["C0"])
    = Done None m'
    ∧ deref (heap m') (Plugin_configuration (plugin m'))
      = Some (snapshot "Sales/General")
    ∧ deref (heap (initial "U0" ["C0"])) (Plugin_configuration (plugin m')) = None
    ∧ BotUserID (plugin m') = "U1"
    ∧ ChannelsID (plugin m') = ["C1"].
Proof.
  destruct (OnConfigurationChange_succeeds (sales_host (snapshot "Sales/General"))
              (initial "U0" ["C0"]) (snapshot "Sales/General")
              (Build_User "U1") ["C1"])
    as (m' & Hrun & Hc & Hfresh & Hb & Hids & _).
  - left. reflexivity.
  - reflexivity.
  - reflexivity.
  - reflexivity.
  - repeat constructor.
    by exists "Sales", "General", (Build_Team "T1"), (Build_Channel "C1").
  - by exists m'.
Defined.

(** X15: the hook can be called again without harm.  On the same host a
    second call right after the first returns the same error or [nil],
    and leaves the same [BotUserID], the same [ChannelsID] and a snapshot
    with the same fields as the first call did. *)
Theorem OnConfigurationChange_idempotent
    (api : API) (m m1 : machine) (err : error) :
  wf m →
  OnConfigurationChange api m = Done err m1 →
  ∃ m2,
    OnConfigurationChange api m1 = Done err m2
    ∧ BotUserID (plugin m2) = BotUserID (plugin m1)
    ∧ ChannelsID (plugin m2) = ChannelsID (plugin m1)
    ∧ deref (heap m2) (Plugin_configuration (plugin m2))
      = deref (heap m1) (Plugin_configuration (plugin m1)).
Proof.
  intros Hwf Hrun.
  assert (wf m1) as Hwf1.
  { destruct (OnConfigurationChange_total api m Hwf) as (err' & m' & Hrun' & Hwf').
    congruence. }
  destruct (LoadPluginConfiguration api zero_configuration) as [c|e] eqn:Hload.
  2:{ rewrite (OnConfigurationChange_load_failed api m e) in Hrun by done.
      injection Hrun as <- <-.
      rewrite (OnConfigurationChange_load_failed api _ e) by done.
      eexists. split; [reflexivity|]. simpl. split_and!; try done.
      destruct Hwf1 as [Hnil|[c Hc]]; simpl in *; [by rewrite Hnil|].
      destruct (Plugin_configuration (plugin m)) as [l|]; [|done]. simpl in *.
      rewrite (lookup_insert_ne _ _ l); [done|].
      intros Heq. rewrite <- Heq in Hc.
      by rewrite fresh_cell_free in Hc. }
  destruct (OnConfigurationChange_shape api m c Hwf Hload)
    as (err1 & b1 & ids1 & evs1 & Hrun1 & Hinvalid1 & Hnouser1 & Hfound1).
  destruct (OnConfigurationChange_shape api m1 c Hwf1 Hload)
    as (err2 & b2 & ids2 & evs2 & Hrun2 & Hinvalid2 & Hnouser2 & Hfound2).
  rewrite Hrun1 in Hrun. injection Hrun as <- <-.
  rewrite Hrun2. simpl in *.
  assert (err2 = err1 ∧ b2 = b1 ∧ ids2 = ids1) as (-> & -> & ->).
  { destruct (IsValid c) as [e|] eqn:Hvalid.
    { destruct (Hinvalid1 e eq_refl) as (-> & -> & -> & _).
      by destruct (Hinvalid2 e eq_refl) as (-> & -> & -> & _). }
    destruct (GetUserByUsername api (Username c)) as [user|] eqn:Huser.
    2:{ destruct (Hnouser1 eq_refl eq_refl) as (-> & -> & -> & _).
        by destruct (Hnouser2 eq_refl eq_refl) as (-> & -> & -> & _). }
    destruct (Hfound1 user eq_refl eq_refl) as (pids1 & pevs1 & Hparse1 & -> & -> & _).
    destruct (Hfound2 user eq_refl eq_refl) as (pids2 & pevs2 & Hparse2 & -> & -> & _).
    specialize (Hparse1 m). specialize (Hparse2 m).
    rewrite Hparse1 in Hparse2. injection Hparse2 as <- <- _.
    by destruct err1. }
  eexists. split; [reflexivity|]. simpl.
  split_and!; try done. by rewrite !lookup_insert_eq.
Qed.

Lemma OnConfigurationChange_idempotent_witness :
  ∃ m1 m2,
    OnConfigurationChange (sales_host (snapshot "Sales/General,Ghost/Town"))
      (initial "U0" ["C0"])
    = Done (Some "Unable to find team with configured team: Ghost") m1
    ∧ OnConfigurationChange (sales_host (snapshot "Sales/General,Ghost/Town")) m1
      = Done (Some "Unable to find team with configured team: Ghost") m2
    ∧ BotUserID (plugin m2) = BotUserID (plugin m1)
    ∧ ChannelsID (plugin m2) = ChannelsID (plugin m1).
Proof.
  assert (∃ m1, OnConfigurationChange
                  (sales_host (snapshot "Sales/General,Ghost/Town"))
                  (initial "U0" ["C0"])
                = Done (Some "Unable to find team with configured team: Ghost") m1)
    as [m1 Hfirst] by (eexists; vm_compute; reflexivity).
  destruct (OnConfigurationChange_idempotent
              (sales_host (snapshot "Sales/General,Ghost/Town"))
              (initial "U0" ["C0"]) m1
              (Some "Unable to find team with configured team: Ghost"))
    as (m2 & Hrun & Hb & Hids & _).
  - left. reflexivity.
  - exact Hfirst.
  - by exists m1, m2.
Defined.

(** ** The change hook on any host *)

Section hook_any_host.
Variable host : Host.

Ltac unfold_hook :=
  unfold OnConfigurationChange, API_LoadPluginConfiguration,
    API_GetUserByUsername, setConfiguration, getPlugin, putPlugin, record,
    indirect, panic, alloc, load, store, mbind, M_bind, mret, M_ret;
  simpl.

(** The loop touches only the log, and panics only on a nil pointer of a
    host that does not honour the contract. *)
Lemma host_loop_outcome pairs : ∀ channelsID m,
  match parseChannels_loop host pairs channelsID m with
  | Done _ m' => heap m' = heap m ∧ plugin m' = plugin m
  | Panic msg => msg = nil_dereference ∧ ¬ honours host
  end.
Proof.
  induction pairs as [|ps rest IH]; intros channelsID m; [done|].
  destruct (two_parts_dec ps) as [Hbad|(t & c & Hv)].
  { by rewrite host_loop_bad_format. }
  destruct (host_GetTeamByName host t) as [team [e|]] eqn:Ht.
  { by erewrite host_loop_team_error. }
  destruct team as [team|].
  2:{ erewrite host_loop_team_nil by done. split; [done|].
      intros (_ & Hteam & _). by apply (Hteam t). }
  destruct (host_GetChannelByName host (Team_Id team) c false)
    as [channel [e|]] eqn:Hc.
  { by erewrite host_loop_channel_error. }
  destruct channel as [channel|].
  2:{ erewrite host_loop_channel_nil by done. split; [done|].
      intros (_ & _ & Hchannel). by apply (Hchannel (Team_Id team) c false). }
  erewrite host_loop_resolved by done.
  match goal with |- context [parseChannels_loop host rest ?acc ?m1] =>
    specialize (IH acc m1) end.
  by destruct (parseChannels_loop host rest _ _).
Qed.

Lemma host_OnConfigurationChange_load_failed (m : machine) (e : string) :
  host_LoadPluginConfiguration host zero_configuration = inr e →
  OnConfigurationChange host m
  = Done (Some ("failed to load plugin configuration: " +:+ e))
      (Build_machine (<[fresh (dom (heap m)) := zero_configuration]> (heap m))
                     (plugin m) (calls m ++ [CallLoadPluginConfiguration])).
Proof.
  intros Hload. unfold_hook. rewrite lookup_insert_eq. simpl.
  by rewrite Hload.
Qed.

Lemma host_OnConfigurationChange_published (m : machine) (c : configuration) :
  wf m →
  host_LoadPluginConfiguration host zero_configuration = inl c →
  OnConfigurationChange host m
  = match IsValid c with
    | Some err => Done (Some err) (republished m c)
    | None =>
        match host_GetUserByUsername host (Username c) with
        | (_, Some _) =>
            Done (Some ("Unable to find user with configured username: "
                        +:+ Username c))
                 (logged (republished m c) [CallGetUserByUsername (Username c)])
        | (None, None) => Panic nil_dereference
        | (Some user, None) =>
            match parseChannelsFromConfig host c
                    (derived (logged (republished m c)
                                     [CallGetUserByUsername (Username c)])
                             (User_Id user) (ChannelsID (plugin m))) with
            | Done (channelsID, Some err) m' => Done (Some err) m'
            | Done (channelsID, None) m' =>
                Done None (derived m' (BotUserID (plugin m')) channelsID)
            | Panic msg => Panic msg
            end
        end
    end.
Proof.
  intros Hwf Hload. apply wf_fresh in Hwf. unfold_hook.
  rewrite lookup_insert_eq. simpl. rewrite Hload. simpl.
  rewrite lookup_insert_eq. simpl.
  rewrite (bool_decide_eq_false_2 (Plugin_configuration (plugin m) = _)) by done.
  simpl. rewrite lookup_insert_eq.
  destruct (IsValid c) as [err|]; [done|].
  destruct (host_GetUserByUsername host (Username c)) as [[user|] [e|]];
    try done.
  unfold derived, logged, republished. simpl.
  destruct (parseChannelsFromConfig host c _) as [[ids [err|]] m'|msg]; done.
Qed.

(** On a well-formed machine the hook returns, leaving a well-formed
    machine with the cells in use untouched, or panics on a nil pointer of
    a host that does not honour the contract.  It never panics in
    [setConfiguration]. *)
Lemma host_OnConfigurationChange_outcome (m : machine) :
  wf m →
  match OnConfigurationChange host m with
  | Done _ m' => wf m' ∧ heap m ⊆ heap m'
  | Panic msg => msg = nil_dereference ∧ ¬ honours host
  end.
Proof.
  intros Hwf.
  destruct (host_LoadPluginConfiguration host zero_configuration)
    as [c|e] eqn:Hload.
  2:{ rewrite (host_OnConfigurationChange_load_failed m e) by done.
      split; [|apply insert_subseteq, fresh_cell_free].
      destruct Hwf as [Hnil|[c Hc]]; [by left|right]. exists c. simpl.
      destruct (Plugin_configuration (plugin m)) as [l|]; [|done]. simpl in *.
      rewrite lookup_insert_ne; [done|].
      intros Heq. rewrite <- Heq in Hc. by rewrite fresh_cell_free in Hc. }
  assert (Hsub : heap m ⊆ heap (republished m c)).
  { simpl. rewrite insert_insert_eq. apply insert_subseteq, fresh_cell_free. }
  assert (Hpub : ∀ m', heap m' = heap (republished m c) →
                       Plugin_configuration (plugin m')
                       = Some (fresh (dom (heap m))) →
                       wf m' ∧ heap m ⊆ heap m').
  { intros m' Hheap Hptr. split; [|by rewrite Hheap].
    right. exists c. rewrite Hptr, Hheap. simpl. apply lookup_insert_eq. }
  rewrite (host_OnConfigurationChange_published m c) by done.
  destruct (IsValid c) as [err|]; [by apply Hpub|].
  destruct (host_GetUserByUsername host (Username c)) as [[user|] [e|]] eqn:Hu;
    [by apply Hpub| |by apply Hpub|].
  2:{ split; [done|]. intros (Huser & _). by apply (Huser (Username c)). }
  unfold parseChannelsFromConfig.
  match goal with |- context [parseChannels_loop host ?pairs ?acc ?m1] =>
    pose proof (host_loop_outcome pairs acc m1) as Hloop;
    destruct (parseChannels_loop host pairs acc m1) as [[ids [err|]] m'|msg]
  end; [| |done].
  - destruct Hloop as [Hheap Hplugin]. apply Hpub; [done|by rewrite Hplugin].
  - destruct Hloop as [Hheap Hplugin]. apply Hpub; [done|].
    simpl. by rewrite Hplugin.
Qed.

End hook_any_host.

(** A reply with a nil value and a nil error makes the code read a field
    through a nil pointer. *)
Example OnConfigurationChange_nil_reply_panics :
  OnConfigurationChange (silent_host (snapshot "Sales/General")) (initial "" [])
  = Panic nil_dereference
  ∧ parseChannelsFromConfig (silent_host (snapshot "Sales/General"))
      (snapshot "Sales/General") (initial "" [])
    = Panic nil_dereference.
Proof. split; vm_compute; reflexivity. Qed.

(** ** Invariants of the plugin *)

Lemma wf_grow (m : machine) (h : gmap positive configuration) (cs : list call) :
  wf m → heap m ⊆ h → wf (Build_machine h (plugin m) cs).
Proof.
  intros [Hnil|[c Hc]] Hsub; [by left|right]. exists c. simpl.
  destruct (Plugin_configuration (plugin m)) as [l|]; [|done]. simpl in *.
  by eapply lookup_weaken.
Qed.

Lemma fresh_insert_subseteq (h : gmap positive configuration) (c : configuration) :
  h ⊆ <[fresh (dom h) := c]> h.
Proof. apply insert_subseteq, fresh_cell_free. Qed.

(** Every operation keeps the machine well-formed and the cells in use as
    they are. *)
Lemma step_invariant (m m' : machine) :
  wf m → step m m' → wf m' ∧ heap m ⊆ heap m'.
Proof.
  intros Hwf Hstep. destruct Hstep as
    [api m err m' Hrun | m ptr m' Hrun | m c ptr m' Hlive Hrun
    | m ptr m' Hlive Hrun].
  - pose proof (host_OnConfigurationChange_outcome api m Hwf) as Hout.
    by rewrite Hrun in Hout.
  - unfold_M. destruct (Plugin_configuration (plugin m)) as [l|] eqn:Hp.
    + by injection Hrun as <- <-.
    + injection Hrun as <- <-. simpl. split; [|apply fresh_insert_subseteq].
      left. simpl. done.
  - unfold Clone in Hrun. unfold_M.
    destruct (deref (heap m) c) as [v|]; [|done].
    injection Hrun as <- <-. simpl. split; [|apply fresh_insert_subseteq].
    apply wf_grow; [done|apply fresh_insert_subseteq].
  - unfold_M.
    destruct (bool_decide (ptr ≠ None)
              && bool_decide (Plugin_configuration (plugin m) = ptr)).
    + destruct (deref (heap m) ptr); done.
    + injection Hrun as <-. simpl. split; [|done].
      destruct Hlive as [->|Hlive]; [by left|by right].
Qed.

Lemma steps_invariant (m m' : machine) :
  wf m → rtc step m m' → wf m' ∧ heap m ⊆ heap m'.
Proof.
  intros Hwf Hsteps. induction Hsteps as [m|m m1 m' Hstep Hsteps IH].
  - done.
  - destruct (step_invariant m m1 Hwf Hstep) as [Hwf1 Hsub1].
    destruct (IH Hwf1) as [Hwf' Hsub']. split; [done|]. by etrans.
Qed.

(** X16: published snapshots are immutable.  Whatever the host and the
    hooks do next (change hooks, reads, clones, publications), a cell in
    use keeps its four fields, so that a reader holding a pointer from
    [getConfiguration] never sees it change; and the stored pointer always
    designates a cell. *)
Theorem snapshots_immutable (m m' : machine) :
  wf m →
  rtc step m m' →
  wf m'
  ∧ ∀ ptr c, deref (heap m) ptr = Some c → deref (heap m') ptr = Some c.
Proof.
  intros Hwf Hsteps.
  destruct (steps_invariant m m' Hwf Hsteps) as [Hwf' Hsub].
  split; [done|]. intros [l|] c Hc; [|done]. simpl in *.
  by eapply lookup_weaken.
Qed.

Lemma snapshots_immutable_witness :
  ∃ m',
    rtc step (published (snapshot "Sales/General")) m'
    ∧ Plugin_configuration (plugin m') ≠ Some 1%positive
    ∧ deref (heap m') (Some 1%positive) = Some (snapshot "Sales/General").
Proof.
  assert (∃ m', OnConfigurationChange (sales_host (snapshot "Sales"))
                  (published (snapshot "Sales/General"))
                = Done (Some "TeamsChannels must be in ofrm TeamName/ChannelName") m'
                ∧ Plugin_configuration (plugin m') ≠ Some 1%positive)
    as (m' & Hrun & Hp) by (eexists; split; [vm_compute; reflexivity|discriminate]).
  exists m'.
  assert (rtc step (published (snapshot "Sales/General")) m') as Hsteps.
  { apply rtc_once. by eapply step_OnConfigurationChange. }
  split_and!; [done|done|].
  apply (snapshots_immutable (published (snapshot "Sales/General")) m').
  - right. eexists. reflexivity.
  - exact Hsteps.
  - reflexivity.
Defined.

(** X17: the hook never trips the guard of [setConfiguration].  From a
    plugin that has not seen any configuration, after any sequence of
    change hooks (on whatever hosts), reads, clones and publications, a
    further change hook does not panic in [setConfiguration]: it returns,
    or it panics on the nil pointer of a host that left a lookup unanswered
    (nil value, nil error).  On a host that never does so it returns. *)
Theorem OnConfigurationChange_never_trips_guard
    (botUserID : string) (channelsID : list string) (m : machine) (host : Host) :
  rtc step (initial botUserID channelsID) m →
  OnConfigurationChange host m
  ≠ Panic "setConfiguration called with the existing configuration"
  ∧ ((∃ err m', OnConfigurationChange host m = Done err m')
     ∨ (OnConfigurationChange host m = Panic nil_dereference ∧ ¬ honours host))
  ∧ (honours host → ∃ err m', OnConfigurationChange host m = Done err m').
Proof.
  intros Hsteps.
  destruct (steps_invariant _ m (wf_initial botUserID channelsID) Hsteps)
    as [Hwf _].
  pose proof (host_OnConfigurationChange_outcome host m Hwf) as Hout.
  destruct (OnConfigurationChange host m) as [err m'|msg].
  - split_and!; [done|left; by exists err, m'|intros _; by exists err, m'].
  - destruct Hout as [-> Hno]. split_and!; [done|by right|done].
Qed.

Lemma OnConfigurationChange_never_trips_guard_witness :
  ∃ m1,
    rtc step (initial "" []) m1
    ∧ Plugin_configuration (plugin m1) ≠ None
    ∧ OnConfigurationChange (sales_host (snapshot "Sales/General")) m1
      ≠ Panic "setConfiguration called with the existing configuration"
    ∧ ∃ err m',
        OnConfigurationChange (sales_host (snapshot "Sales/General")) m1
        = Done err m'.
Proof.
  assert (∃ m1, OnConfigurationChange (sales_host (snapshot "Sales")) (initial "" [])
                = Done (Some "TeamsChannels must be in ofrm TeamName/ChannelName") m1
                ∧ Plugin_configuration (plugin m1) ≠ None)
    as (m1 & Hrun & Hp) by (eexists; split; [vm_compute; reflexivity|discriminate]).
  assert (rtc step (initial "" []) m1) as Hsteps.
  { apply rtc_once. by eapply step_OnConfigurationChange. }
  destruct (OnConfigurationChange_never_trips_guard "" [] m1
              (sales_host (snapshot "Sales/General")) Hsteps)
    as (Hguard & _ & Hreturns).
  exists m1. split_and!; [done|done|done|].
  apply Hreturns. split_and!; intros; simpl; unfold reply;
    repeat case_match; discriminate.
Defined.

(** ** Which error the resolution reports *)

(** X18: the error of [parseChannelsFromConfig] is about the first
    pair-string that does not resolve, and names what is wrong with it: the
    pair-string itself when it has not two parts, else the team name when
    the host does not know the team, else the channel name.  The result
    next to it holds the identifiers of the pair-strings before. *)
Theorem parseChannels_error_names_culprit
    (api : API) (c : configuration) (pre post : list string) (ps : string)
    (ids : list string) :
  strings.Split (TeamsChannels c) "," = pre ++ ps :: post →
  Forall2 (resolves api) pre ids →
  (∀ id, ¬ resolves api ps id) →
  ∃ msg evs,
    (∀ m, parseChannelsFromConfig api c m
          = Done (ids, Some msg)
                 (logged m (concat (lookups api <$> pre) ++ evs)))
    ∧ ((length (strings.Split ps "/") ≠ 2
        ∧ msg = "Bad formatted TeamsChannels: " +:+ ps
        ∧ evs = [])
       ∨ (∃ t ch,
            strings.Split ps "/" = [t; ch]
            ∧ GetTeamByName api t = None
            ∧ msg = "Unable to find team with configured team: " +:+ t
            ∧ evs = [CallGetTeamByName t])
       ∨ (∃ t ch team,
            strings.Split ps "/" = [t; ch]
            ∧ GetTeamByName api t = Some team
            ∧ GetChannelByName api (Team_Id team) ch false = None
            ∧ msg = "Unable to find channel with configured channel: " +:+ ch
            ∧ evs = [CallGetTeamByName t;
                     CallGetChannelByName (Team_Id team) ch false])).
Proof.
  intros Hsplit Hpre Hps.
  assert (Hprefix : ∀ m,
            parseChannelsFromConfig api c m
            = parseChannels_loop api (ps :: post) ids
                (logged m (concat (lookups api <$> pre)))).
  { intros m. unfold parseChannelsFromConfig.
    rewrite Hsplit, loop_app. by rewrite (loop_all_resolved api pre ids). }
  destruct (two_parts_dec ps) as [Hbad|(t & ch & Hv)].
  { eexists _, []. split; [|left; done].
    intros m. rewrite Hprefix, app_nil_r. by apply loop_bad_format. }
  destruct (GetTeamByName api t) as [team|] eqn:Ht.
  2:{ eexists _, _. split; [|right; left; by exists t, ch].
      intros m. rewrite Hprefix. erewrite loop_no_team by done.
      by rewrite logged_logged. }
  destruct (GetChannelByName api (Team_Id team) ch false) as [channel|] eqn:Hc.
  2:{ eexists _, _. split; [|right; right; by exists t, ch, team].
      intros m. rewrite Hprefix. erewrite loop_no_channel by done.
      by rewrite logged_logged. }
  exfalso. apply (Hps (Channel_Id channel)). by exists t, ch, team, channel.
Qed.

Lemma parseChannels_error_names_culprit_witness :
  ∃ msg evs,
    ∀ m, parseChannelsFromConfig (sales_host (snapshot "Sales/General,Sales/Lost"))
           (snapshot "Sales/General,Sales/Lost") m
         = Done (["C1"], Some msg)
                (logged m (concat (lookups (sales_host (snapshot "Sales/General,Sales/Lost"))
                                     <$> ["Sales/General"]) ++ evs)).
Proof.
  destruct (parseChannels_error_names_culprit
              (sales_host (snapshot "Sales/General,Sales/Lost"))
              (snapshot "Sales/General,Sales/Lost")
              ["Sales/General"] [] "Sales/Lost" ["C1"])
    as (msg & evs & Hrun & _).
  - reflexivity.
  - repeat constructor.
    by exists "Sales", "General", (Build_Team "T1"), (Build_Channel "C1").
  - intros id (t & ch & team & channel & Hv & Ht & Hc & _).
    injection Hv as <- <-. injection Ht as <-. discriminate.
  - by exists msg, evs.
Defined.
